(** * libdevcore/Log.cpp: the logging pipeline

    A shallow embedding of the Boost.Log based part of [Log.cpp] (the
    [#ifndef QTEP_BUILD] half): the label table [verbosityToString], the
    [formatter], the thread-name registry, the sink filter installed by
    [setupLogging], the exception handler and the trace flag.

    [Log.h] and the colour macros live in other headers, so the verbosity
    constants and the colour codes are parameters ([Verbosity],
    [Terminal]).  [getThreadName] and [setThreadName] are first taken in
    the branch with the thread-specific pointer; [getThreadName_in] and
    [setThreadName_in] add the glibc and Apple branches over the two
    pthread functions they call ([Pthread]).  The dispatch of the logging
    core and the queue of the asynchronous front end are the logging
    library's; they are modelled after the spec ([push_record] for the
    synchronous front end, [feed_record] for the asynchronous one). *)

From Stdlib Require Import ZArith Ascii String List Lia.
From stdpp Require Import base option list strings gmap.

Local Open Scope Z_scope.

(** ** Constants of [Log.h] *)

(** The [Verbosity*] enumerators, used as [case] labels and thresholds. *)
Class Verbosity := {
  VerbosityError : Z;
  VerbosityWarning : Z;
  VerbosityInfo : Z;
  VerbosityDebug : Z;
  VerbosityTrace : Z
}.

(** The order of the levels: a lower number is more urgent. *)
Definition verbosity_ordered (V : Verbosity) : Prop :=
  VerbosityError < VerbosityWarning /\ VerbosityWarning < VerbosityInfo /\
  VerbosityInfo < VerbosityDebug /\ VerbosityDebug < VerbosityTrace.

(** A [switch] needs pairwise different [case] labels. *)
Definition verbosity_distinct (V : Verbosity) : Prop :=
  NoDup [VerbosityError; VerbosityWarning; VerbosityInfo; VerbosityDebug; VerbosityTrace].

(** The colour macros spliced into the format. *)
Class Terminal := {
  EthReset : string;
  EthNavy : string;
  EthViolet : string
}.

(** [struct LoggingOptions], with the four fields [setupLogging] reads. *)
Record LoggingOptions := {
  verbosity : Z;
  includeChannels : list string;
  excludeChannels : list string;
  vmTrace : bool
}.

(** The levels 0..4 and the ANSI escape sequences, for concrete runs. *)
Definition levels : Verbosity :=
  {| VerbosityError := 0; VerbosityWarning := 1; VerbosityInfo := 2;
     VerbosityDebug := 3; VerbosityTrace := 4 |}.

Definition ESC : ascii := ascii_of_nat 27.
Definition LF : ascii := ascii_of_nat 10.
Definition SP : ascii := ascii_of_nat 32.

Definition ansi : Terminal :=
  {| EthReset := String ESC "[0m";
     EthNavy := String ESC "[34m";
     EthViolet := String ESC "[35m" |}.

(** ** Records *)

(** [boost::posix_time::ptime], by its calendar fields. *)
Record ptime := {
  pt_year : nat;
  pt_month : nat;
  pt_day : nat;
  pt_hours : nat;
  pt_minutes : nat;
  pt_seconds : nat
}.

(** The attribute values of one record, as the keywords of lines 34-39 name
    them.  [prefix] and [suffix] may be missing ([has_attr]); the message
    is the [smessage] attribute. *)
Record record_view := {
  severity : Z;
  channel : string;
  threadName : string;
  timestamp : ptime;
  prefix : option string;
  suffix : option string;
  smessage : string
}.

Definition has_attr {A} (a : option A) : bool :=
  match a with Some _ => true | None => false end.

(** ** The formatting stream *)

Variant adjustfield := adjust_left | adjust_right.

(** The text written so far, the pending field width and the adjustment. *)
Record formatting_ostream := {
  str : string;
  width : nat;
  adjust : adjustfield
}.

Fixpoint fill (n : nat) (c : ascii) : string :=
  match n with
  | O => EmptyString
  | S n' => String c (fill n' c)
  end.

(** What [operator<<] is applied to: a manipulator, a piece of text, or
    the reference [_rec[keyword]] to an attribute that may be missing. *)
Variant item :=
  | setw (n : nat)
  | std_left
  | Str (s : string)
  | Ref (v : option string).

Coercion Str : string >-> item.

(** Text is padded with blanks up to the pending width, on the side
    [adjust] says, and the width is reset; text at least as wide as the
    field is written whole. *)
Definition put (s : string) (strm : formatting_ostream) : formatting_ostream :=
  let pad := fill (width strm - String.length s) SP in
  {| str := str strm +:+
            match adjust strm with
            | adjust_left => s +:+ pad
            | adjust_right => pad +:+ s
            end;
     width := 0;
     adjust := adjust strm |}.

(** [operator<<].  An empty reference writes nothing. *)
Definition insert (strm : formatting_ostream) (i : item) : formatting_ostream :=
  match i with
  | setw n => {| str := str strm; width := n; adjust := adjust strm |}
  | std_left => {| str := str strm; width := width strm; adjust := adjust_left |}
  | Str s => put s strm
  | Ref (Some s) => put s strm
  | Ref None => strm
  end.

Declare Scope stream_scope.
Delimit Scope stream_scope with stream.
Notation "s << i" := (insert s i) (at level 50, left associativity) : stream_scope.
Local Open Scope stream_scope.

(** An empty stream with the default flags. *)
Definition fresh_stream : formatting_ostream :=
  {| str := ""; width := 0; adjust := adjust_right |}.

(** ** Formatting *)

(** Lines 57-73. *)
Definition verbosityToString {V : Verbosity} (_verbosity : Z) : string :=
  if _verbosity =? VerbosityError then "ERROR"
  else if _verbosity =? VerbosityWarning then "WARN"
  else if _verbosity =? VerbosityInfo then "INFO"
  else if _verbosity =? VerbosityDebug then "DEBUG"
  else if _verbosity =? VerbosityTrace then "TRACE"
  else "".

Definition digit (n : nat) : ascii := ascii_of_nat (48 + n mod 10).

Definition two_digits (n : nat) : string :=
  String (digit (n / 10)) (String (digit n) EmptyString).

(** [format_date_time(timestamp, "%m-%d %H:%M:%S")]. *)
Definition format_date_time (t : ptime) : string :=
  two_digits (pt_month t) +:+ "-" +:+ two_digits (pt_day t) +:+ " " +:+
  two_digits (pt_hours t) +:+ ":" +:+ two_digits (pt_minutes t) +:+ ":" +:+
  two_digits (pt_seconds t).

(** Lines 52-55. *)
Definition g_timestampFormatter {T : Terminal}
    (_rec : record_view) (_strm : formatting_ostream) : formatting_ostream :=
  _strm << EthViolet << format_date_time (timestamp _rec) << (EthReset +:+ " ").

(** Lines 75-91. *)
Definition formatter {V : Verbosity} {T : Terminal}
    (_rec : record_view) (_strm : formatting_ostream) : formatting_ostream :=
  let _strm := _strm << setw 5 << std_left << verbosityToString (severity _rec) << " " in
  let _strm := g_timestampFormatter _rec _strm in
  let _strm := _strm << EthNavy << setw 4 << std_left << threadName _rec
                     << (EthReset +:+ " ") in
  let _strm := _strm << setw 6 << std_left << channel _rec << " " in
  let _strm :=
    if has_attr (prefix _rec)
    then _strm << EthNavy << Ref (prefix _rec) << (EthReset +:+ " ")
    else _strm in
  let _strm := _strm << smessage _rec in
  if has_attr (suffix _rec)
  then _strm << (" " +:+ EthNavy) << Ref (suffix _rec) << EthReset
  else _strm.

(** The text the formatter leaves in a stream that starts empty. *)
Definition render {V : Verbosity} {T : Terminal} (_rec : record_view) : string :=
  str (formatter _rec fresh_stream).

(** ** The sink filter *)

(** Modelled from the spec: [contains] is a helper of another header; the
    filter rejects "unless channel is a member" of the set, so it is the
    membership test, here a linear search. *)
Fixpoint contains (_t : list string) (_v : string) : bool :=
  match _t with
  | [] => false
  | x :: _t' => if String.eqb x _v then true else contains _t' _v
  end.

Definition empty {A} (l : list A) : bool :=
  match l with [] => true | _ => false end.

(** The lambda given to [set_filter], lines 128-136. *)
Definition sink_filter (_options : LoggingOptions) (_set : record_view) : bool :=
  if severity _set >? verbosity _options then false
  else
    let messageChannel := channel _set in
    (empty (includeChannels _options) || contains (includeChannels _options) messageChannel)
    && negb (contains (excludeChannels _options) messageChannel).

(** ** Failures *)

(** What a failing formatter or stream may throw: an exception derived from
    [std::exception], with its [what()] text, or an object of another type. *)
Variant exn :=
  | std_exception (what : string)
  | foreign_exception.

(** The handler of lines 147-150, [make_exception_handler<std::exception>]
    around the lambda: an exception of the named type is reported on
    [std::cerr] and swallowed, any other keeps propagating. *)
Definition exception_handler (e : exn) (cerr : string) : string * option exn :=
  match e with
  | std_exception what =>
      (cerr +:+ "Exception from the logging library: " +:+ what +:+ String LF "", None)
  | foreign_exception => (cerr, Some e)
  end.

(** What happens while a record is formatted and written: nothing, or an
    exception thrown after [written] had reached the stream ([""] when the
    formatter itself throws). *)
Variant fault :=
  | no_fault
  | raises (written : string) (e : exn).

(** ** Process state *)

Definition thread_id := nat.

(** The globals of the file and the logging core it configures.
    [g_logThreadName] is the thread-specific pointer, one slot per thread,
    missing while null.  [sinks] holds the options captured by the filter
    of each registered sink; [handler_set] says whether the core has its
    exception handler. *)
Record world := {
  g_logThreadName : gmap thread_id string;
  g_vmTraceEnabled : bool;
  sinks : list LoggingOptions;
  handler_set : bool;
  cout : string;
  cerr : string
}.

(** Static initialisation, run by thread [main]: [g_logThreadName("main")]
    fills the slot of that thread only, [g_vmTraceEnabled{false}]. *)
Definition initial_world (main : thread_id) : world :=
  {| g_logThreadName := {[ main := "main" ]};
     g_vmTraceEnabled := false;
     sinks := [];
     handler_set := false;
     cout := "";
     cerr := "" |}.

(** Lines 96-106, the branch that reads the thread-specific pointer. *)
Definition getThreadName (t : thread_id) (w : world) : string :=
  match g_logThreadName w !! t with
  | Some n => n
  | None => "<unknown>"
  end.

(** Lines 108-117, same branch: [m_name.reset(new std::string(_n))]. *)
Definition setThreadName (t : thread_id) (_n : string) (w : world) : world :=
  {| g_logThreadName := <[ t := _n ]> (g_logThreadName w);
     g_vmTraceEnabled := g_vmTraceEnabled w;
     sinks := sinks w;
     handler_set := handler_set w;
     cout := cout w;
     cerr := cerr w |}.

(** Lines 119-153: one more sink with its filter, the handler, the flag. *)
Definition setupLogging (_options : LoggingOptions) (w : world) : world :=
  {| g_logThreadName := g_logThreadName w;
     g_vmTraceEnabled := vmTrace _options;
     sinks := sinks w ++ [_options];
     handler_set := true;
     cout := cout w;
     cerr := cerr w |}.

(** Lines 155-158. *)
Definition isVmTraceEnabled (w : world) : bool := g_vmTraceEnabled w.

(** ** Emission through the synchronous front end *)

(** The text the sinks whose filter accepts [r] put on the stream: per
    sink the formatted record and a line end. *)
Definition written_lines {V : Verbosity} {T : Terminal}
    (accepting : list LoggingOptions) (r : record_view) : string :=
  String.concat "" (map (fun _ => render r +:+ String LF "") accepting).

Definition set_streams (w : world) (out err : string) : world :=
  {| g_logThreadName := g_logThreadName w;
     g_vmTraceEnabled := g_vmTraceEnabled w;
     sinks := sinks w;
     handler_set := handler_set w;
     cout := out;
     cerr := err |}.

(** The sinks whose filter lets [r] through. *)
Definition accepting_sinks (r : record_view) (w : world) : list LoggingOptions :=
  filter (fun o => sink_filter o r = true) (sinks w).

(** Modelled from the spec: the dispatch of the logging core, which is
    Boost.Log's and not part of the file (sections 4.5, 4.6 and 7 of the
    spec).  The core hands a record to the sinks that accept it, inside
    its exception boundary; with the synchronous front end the calling
    thread formats and writes there.  The result pairs the new state with
    the exception that reaches the caller, if any.  While no sink is
    registered the library prints through a default sink of its own,
    which is left out here. *)
Definition push_record {V : Verbosity} {T : Terminal}
    (r : record_view) (f : fault) (w : world) : world * option exn :=
  match accepting_sinks r w with
  | [] => (w, None)
  | accepting =>
      match f with
      | no_fault => (set_streams w (cout w +:+ written_lines accepting r) (cerr w), None)
      | raises written e =>
          if handler_set w then
            let '(err, escaped) := exception_handler e (cerr w) in
            (set_streams w (cout w +:+ written) err, escaped)
          else (set_streams w (cout w +:+ written) (cerr w), Some e)
      end
  end.

(** What a call site supplies; the core adds thread name and time stamp. *)
Record payload := {
  p_severity : Z;
  p_channel : string;
  p_prefix : option string;
  p_suffix : option string;
  p_message : string
}.

Definition stamp (t : thread_id) (now : ptime) (p : payload) (w : world) : record_view :=
  {| severity := p_severity p;
     channel := p_channel p;
     threadName := getThreadName t w;
     timestamp := now;
     prefix := p_prefix p;
     suffix := p_suffix p;
     smessage := p_message p |}.

Definition log {V : Verbosity} {T : Terminal}
    (t : thread_id) (now : ptime) (p : payload) (f : fault) (w : world) : world * option exn :=
  push_record (stamp t now p w) f w.

(** The operations a program performs on this state. *)
Variant call :=
  | call_setThreadName (t : thread_id) (n : string)
  | call_getThreadName (t : thread_id)
  | call_isVmTraceEnabled (t : thread_id)
  | call_log (t : thread_id) (now : ptime) (p : payload) (f : fault)
  | call_setupLogging (o : LoggingOptions).

Definition exec {V : Verbosity} {T : Terminal} (w : world) (c : call) : world :=
  match c with
  | call_setThreadName t n => setThreadName t n w
  | call_getThreadName _ => w
  | call_isVmTraceEnabled _ => w
  | call_log t now p f => fst (log t now p f w)
  | call_setupLogging o => setupLogging o w
  end.

Definition run {V : Verbosity} {T : Terminal} (w : world) (cs : list call) : world :=
  fold_left exec cs w.

Definition is_setup (c : call) : bool :=
  match c with call_setupLogging _ => true | _ => false end.

Definition sets_name_of (t : thread_id) (c : call) : bool :=
  match c with
  | call_setThreadName t' _ => bool_decide (t' = t)
  | _ => false
  end.

(** ** The layout of a line, and reading a line back *)

(** A field of width [w], left-justified. *)
Definition left_justify (w : nat) (s : string) : string :=
  s +:+ fill (w - String.length s) SP.

(** The four leading fields, each with its separator. *)
Definition fixed_fields {V : Verbosity} {T : Terminal} (r : record_view) : string :=
  left_justify 5 (verbosityToString (severity r)) +:+ " " +:+
  EthViolet +:+ format_date_time (timestamp r) +:+ EthReset +:+ " " +:+
  EthNavy +:+ left_justify 4 (threadName r) +:+ EthReset +:+ " " +:+
  left_justify 6 (channel r) +:+ " ".

(** The segment a prefix adds before the message: none without the
    attribute, the coloured text and a blank with it. *)
Definition prefix_segment {T : Terminal} (p : option string) : string :=
  match p with
  | Some p => EthNavy +:+ p +:+ EthReset +:+ " "
  | None => ""
  end.

(** The segment a suffix adds after the message. *)
Definition suffix_segment {T : Terminal} (s : option string) : string :=
  match s with
  | Some s => " " +:+ EthNavy +:+ s +:+ EthReset
  | None => ""
  end.

(** The fields of a line, in the order in which they are written. *)
Record line_fields := {
  f_label : string;
  f_time : string;
  f_thread : string;
  f_channel : string;
  f_prefix : option string;
  f_message : string;
  f_suffix : option string
}.

Definition fields_of {V : Verbosity} (r : record_view) : line_fields :=
  {| f_label := verbosityToString (severity r);
     f_time := format_date_time (timestamp r);
     f_thread := threadName r;
     f_channel := channel r;
     f_prefix := prefix r;
     f_message := smessage r;
     f_suffix := suffix r |}.

Definition is_sp (c : ascii) : bool := Ascii.eqb c SP.
Definition is_esc (c : ascii) : bool := Ascii.eqb c ESC.
Definition is_lf (c : ascii) : bool := Ascii.eqb c LF.
Definition is_sp_or_esc (c : ascii) : bool := is_sp c || is_esc c.

(** No character of [s] is [bad]. *)
Fixpoint char_free (bad : ascii -> bool) (s : string) : bool :=
  match s with
  | EmptyString => true
  | String c s' => negb (bad c) && char_free bad s'
  end.

(** The text before the first [stop] character, and the rest. *)
Fixpoint span (stop : ascii -> bool) (s : string) : string * string :=
  match s with
  | EmptyString => (EmptyString, EmptyString)
  | String c s' =>
      if stop c then (EmptyString, s)
      else let '(f, rest) := span stop s' in (String c f, rest)
  end.

Fixpoint strip_prefix (p s : string) : option string :=
  match p with
  | EmptyString => Some s
  | String a p' =>
      match s with
      | String b s' => if Ascii.eqb a b then strip_prefix p' s' else None
      | EmptyString => None
      end
  end.

Fixpoint take (n : nat) (s : string) : option (string * string) :=
  match n with
  | O => Some (EmptyString, s)
  | S n' =>
      match s with
      | EmptyString => None
      | String c s' => '(f, rest) ← take n' s'; Some (String c f, rest)
      end
  end.

(** [s] without its last character, which has to be a blank. *)
Fixpoint drop_last_blank (s : string) : option string :=
  match s with
  | EmptyString => None
  | String c EmptyString => if is_sp c then Some EmptyString else None
  | String c s' => String c <$> drop_last_blank s'
  end.

(** A left-justified field of width [w]: its text up to the first [stop]
    character, then the blanks that fill the width. *)
Definition read_field (w : nat) (stop : ascii -> bool) (s : string) : option (string * string) :=
  let '(f, rest) := span stop s in
  rest' ← strip_prefix (fill (w - String.length f) SP) rest;
  Some (f, rest').

Definition read_prefix {T : Terminal} (s : string) : option (option string * string) :=
  match strip_prefix EthNavy s with
  | Some s1 =>
      let '(p, s2) := span is_esc s1 in
      s3 ← strip_prefix (EthReset +:+ " ") s2;
      Some (Some p, s3)
  | None => Some (None, s)
  end.

Definition read_message {T : Terminal} (s : string) : option (string * option string) :=
  let '(m, s1) := span is_esc s in
  match s1 with
  | EmptyString => Some (m, None)
  | _ =>
      m' ← drop_last_blank m;
      s2 ← strip_prefix EthNavy s1;
      let '(sfx, s3) := span is_esc s2 in
      if String.eqb s3 EthReset then Some (m', Some sfx) else None
  end.

(** A reader for the lines of [formatter], field by field. *)
Definition parse_line {T : Terminal} (s : string) : option line_fields :=
  '(label, s) ← read_field 5 is_sp s;
  s ← strip_prefix " " s;
  s ← strip_prefix EthViolet s;
  '(time, s) ← take 14 s;
  s ← strip_prefix (EthReset +:+ " ") s;
  s ← strip_prefix EthNavy s;
  '(thread, s) ← read_field 4 is_sp_or_esc s;
  s ← strip_prefix (EthReset +:+ " ") s;
  '(chan, s) ← read_field 6 is_sp s;
  s ← strip_prefix " " s;
  '(pfx, s) ← read_prefix s;
  '(msg, sfx) ← read_message s;
  Some {| f_label := label; f_time := time; f_thread := thread; f_channel := chan;
          f_prefix := pfx; f_message := msg; f_suffix := sfx |}.

(** The colour codes a line can be read back with: the markers of a
    coloured field start with the escape character. *)
Definition escape_coded (T : Terminal) : Prop :=
  (exists navy, EthNavy = String ESC navy) /\ (exists reset, EthReset = String ESC reset).

(** The records whose text does not collide with the separators: no blank
    or escape in the thread name, no blank in the channel, no escape in
    prefix, message and suffix. *)
Definition separable (r : record_view) : Prop :=
  char_free is_sp_or_esc (threadName r) = true /\
  char_free is_sp (channel r) = true /\
  char_free is_esc (default "" (prefix r)) = true /\
  char_free is_esc (smessage r) = true /\
  char_free is_esc (default "" (suffix r)) = true.

(** No colour code and no text field of [r] holds a line feed. *)
Definition line_break_free (T : Terminal) (r : record_view) : Prop :=
  char_free is_lf EthReset = true /\ char_free is_lf EthNavy = true /\
  char_free is_lf EthViolet = true /\
  char_free is_lf (threadName r) = true /\ char_free is_lf (channel r) = true /\
  char_free is_lf (default "" (prefix r)) = true /\
  char_free is_lf (smessage r) = true /\
  char_free is_lf (default "" (suffix r)) = true.

(** [s] is empty or starts with a [stop] character. *)
Definition stops_at (stop : ascii -> bool) (s : string) : Prop :=
  match s with
  | EmptyString => True
  | String c _ => stop c = true
  end.

(** [s] does not start with the escape character. *)
Definition unescaped_head (s : string) : Prop :=
  match s with
  | EmptyString => True
  | String c _ => is_esc c = false
  end.

(** ** Sample values *)

Definition noon : ptime :=
  {| pt_year := 2019; pt_month := 3; pt_day := 14;
     pt_hours := 12; pt_minutes := 0; pt_seconds := 7 |}.

Definition boom : record_view :=
  {| severity := 0; channel := "net"; threadName := "main"; timestamp := noon;
     prefix := None; suffix := None; smessage := "boom" |}.

(** Two records with one rendering: the second carries in its message
    what the prefix segment of the first looks like. *)
Definition boom_prefixed : record_view :=
  {| severity := 0; channel := "net"; threadName := "main"; timestamp := noon;
     prefix := Some "p"; suffix := None; smessage := "boom" |}.

Definition boom_disguised : record_view :=
  {| severity := 0; channel := "net"; threadName := "main"; timestamp := noon;
     prefix := None; suffix := None;
     smessage := String ESC "[34mp" +:+ String ESC "[0m boom" |}.

Definition boom_two_lines : record_view :=
  {| severity := 0; channel := "net"; threadName := "main"; timestamp := noon;
     prefix := None; suffix := None; smessage := "bo" +:+ String LF "om" |}.

(** The same record at another severity. *)
Definition set_severity (s : Z) (r : record_view) : record_view :=
  {| severity := s; channel := channel r; threadName := threadName r;
     timestamp := timestamp r; prefix := prefix r; suffix := suffix r;
     smessage := smessage r |}.

(** The same record with other decorations. *)
Definition set_decorations (p s : option string) (r : record_view) : record_view :=
  {| severity := severity r; channel := channel r; threadName := threadName r;
     timestamp := timestamp r; prefix := p; suffix := s;
     smessage := smessage r |}.

(** The configuration of the scenario: threshold Info, nothing included,
    channel net excluded. *)
Definition info_without_net {V : Verbosity} : LoggingOptions :=
  {| verbosity := VerbosityInfo; includeChannels := [];
     excludeChannels := ["net"]; vmTrace := false |}.

(** A configuration that lets channel net through up to Info, with the
    trace flag set. *)
Definition only_net : LoggingOptions :=
  {| verbosity := 2; includeChannels := ["net"]; excludeChannels := [];
     vmTrace := true |}.

Definition boom_payload : payload :=
  {| p_severity := 0; p_channel := "net"; p_prefix := None; p_suffix := None;
     p_message := "boom" |}.

(** The initial state after one setup. *)
Definition configured : world := setupLogging only_net (initial_world 0%nat).

(** Calls of three threads: no setup among them, and no renaming of
    thread 1 or thread 3. *)
Definition busy_calls : list call :=
  [ call_setThreadName 2%nat "net";
    call_log 2%nat noon boom_payload no_fault;
    call_getThreadName 1%nat;
    call_isVmTraceEnabled 0%nat;
    call_log 1%nat noon boom_payload (raises "" (std_exception "bad")) ].

(** ** Further operations and readers *)

(** The options with one more channel in the include list. *)
Definition add_include (d : string) (o : LoggingOptions) : LoggingOptions :=
  {| verbosity := verbosity o; includeChannels := d :: includeChannels o;
     excludeChannels := excludeChannels o; vmTrace := vmTrace o |}.

(** The five verbosity constants. *)
Definition known_levels {V : Verbosity} : list Z :=
  [VerbosityError; VerbosityWarning; VerbosityInfo; VerbosityDebug; VerbosityTrace].

(** A reader for the two-digit numbers of the time stamp. *)
Definition read_two_digits (s : string) : option (nat * string) :=
  match s with
  | String a (String b rest) =>
      d1 ← Ascii.is_nat a; d0 ← Ascii.is_nat b; Some ((10 * d1 + d0)%nat, rest)
  | _ => None
  end.

(** The calendar fields a time stamp text shows: month, day, hours,
    minutes, seconds. *)
Record shown_time := {
  s_month : nat;
  s_day : nat;
  s_hours : nat;
  s_minutes : nat;
  s_seconds : nat
}.

Definition shown (t : ptime) : shown_time :=
  {| s_month := pt_month t; s_day := pt_day t; s_hours := pt_hours t;
     s_minutes := pt_minutes t; s_seconds := pt_seconds t |}.

(** A reader for the text of [format_date_time]. *)
Definition parse_date_time (s : string) : option shown_time :=
  '(mo, s) ← read_two_digits s;
  s ← strip_prefix "-" s;
  '(d, s) ← read_two_digits s;
  s ← strip_prefix " " s;
  '(h, s) ← read_two_digits s;
  s ← strip_prefix ":" s;
  '(mi, s) ← read_two_digits s;
  s ← strip_prefix ":" s;
  '(se, s) ← read_two_digits s;
  match s with
  | EmptyString => Some {| s_month := mo; s_day := d; s_hours := h;
                           s_minutes := mi; s_seconds := se |}
  | _ => None
  end.

(** The calendar fields are those of a date and a time of day. *)
Definition calendar (t : ptime) : Prop :=
  (pt_month t < 100 /\ pt_day t < 100 /\ pt_hours t < 100 /\
   pt_minutes t < 100 /\ pt_seconds t < 100)%nat.

(** The options of the setup calls of a run, in the order of the calls. *)
Definition setup_options (cs : list call) : list LoggingOptions :=
  omap (fun c => match c with call_setupLogging o => Some o | _ => None end) cs.

(** [k] times the text [s]. *)
Fixpoint copies (k : nat) (s : string) : string :=
  match k with
  | O => EmptyString
  | S k' => s +:+ copies k' s
  end.

(** ** The build without the logging library *)

(** The [#else] half of the file (lines 162-194): no sinks, no registry,
    a verbosity number and a writer to [std::cerr]. *)
Module Qtep.

Record world := {
  g_logVerbosity : Z;
  cerr : string
}.

(** [int g_logVerbosity = 5]. *)
Definition initial_world : world := {| g_logVerbosity := 5; cerr := "" |}.

(** Lines 174-175: the name is dropped. *)
Definition setThreadName (_n : string) (w : world) : world := w.

(** Lines 177-180. *)
Definition getThreadName (w : world) : string := "".

(** Lines 182-185: the text, a line end, a flush; the second argument is
    not used. *)
Definition simpleDebugOut (_s : string) (_channel : string) (w : world) : world :=
  {| g_logVerbosity := g_logVerbosity w; cerr := cerr w +:+ _s +:+ String LF "" |}.

(** Lines 189-192. *)
Definition isVmTraceEnabled {V : Verbosity} (w : world) : bool :=
  VerbosityTrace <? g_logVerbosity w.

Variant call :=
  | call_setThreadName (n : string)
  | call_simpleDebugOut (s channel : string).

Definition exec (w : world) (c : call) : world :=
  match c with
  | call_setThreadName n => setThreadName n w
  | call_simpleDebugOut s channel => simpleDebugOut s channel w
  end.

Definition run (w : world) (cs : list call) : world := fold_left exec cs w.

(** The texts handed to [simpleDebugOut] during a run. *)
Definition posted (cs : list call) : list string :=
  omap (fun c => match c with call_simpleDebugOut s _ => Some s | _ => None end) cs.

End Qtep.

(** Sample values for the further properties. *)
Definition net_rpc_net : LoggingOptions :=
  {| verbosity := 2; includeChannels := ["net"; "rpc"; "net"];
     excludeChannels := ["p2p"; "p2p"]; vmTrace := false |}.

Definition rpc_net : LoggingOptions :=
  {| verbosity := 2; includeChannels := ["rpc"; "net"];
     excludeChannels := ["p2p"]; vmTrace := true |}.

Definition no_channel_lists : LoggingOptions :=
  {| verbosity := 2; includeChannels := []; excludeChannels := []; vmTrace := false |}.

Definition warm_payload : payload :=
  {| p_severity := 1; p_channel := "net"; p_prefix := Some "peer";
     p_suffix := None; p_message := "warm" |}.

Definition qtep_calls : list Qtep.call :=
  [ Qtep.call_setThreadName "worker";
    Qtep.call_simpleDebugOut "one" "net";
    Qtep.call_simpleDebugOut "two" "rpc" ].

(** ** The asynchronous front end *)

(** Modelled from the spec: the record queue and the worker of
    [asynchronous_sink], which [log_sink] names under [NDEBUG] (lines
    22-25) and line 121 constructs; both are Boost.Log's.  Section 4.5 of
    the spec: the calling thread enqueues the record into an internal
    queue; a dedicated background worker dequeues in submission order and
    performs the write.  A job keeps the submitting thread beside the
    record. *)
Record job := {
  j_thread : thread_id;
  j_record : record_view
}.

(** Modelled from the spec: the state of one asynchronous sink: the options
    its filter captured (line 128), the queue, the jobs written so far in
    the order of writing, whether the worker thread is alive, and the two
    streams. *)
Record asynchronous_sink := {
  a_options : LoggingOptions;
  a_queue : list job;
  a_written : list job;
  a_running : bool;
  a_cout : string;
  a_cerr : string
}.

(** A sink as line 121 makes it, over streams that hold [out] and [err]. *)
Definition new_sink (o : LoggingOptions) (out err : string) : asynchronous_sink :=
  {| a_options := o; a_queue := []; a_written := []; a_running := true;
     a_cout := out; a_cerr := err |}.

(** Modelled from the spec: submission.  The filter runs on the calling
    thread; an accepted record goes to the back of the queue. *)
Definition enqueue (t : thread_id) (r : record_view) (s : asynchronous_sink)
    : asynchronous_sink :=
  if sink_filter (a_options s) r
  then {| a_options := a_options s;
          a_queue := a_queue s ++ [{| j_thread := t; j_record := r |}];
          a_written := a_written s; a_running := a_running s;
          a_cout := a_cout s; a_cerr := a_cerr s |}
  else s.

(** Modelled from the spec: one step of the worker.  It takes the job at
    the front of the queue, formats it and writes the line.  The handler
    of line 147 is set on the core, and the sink of line 121 is given
    none of its own: a failure on the worker thread meets no handler, so
    nothing is reported and the worker ends. *)
Definition feed_record {V : Verbosity} {T : Terminal}
    (f : fault) (s : asynchronous_sink) : asynchronous_sink :=
  if a_running s then
    match a_queue s with
    | [] => s
    | j :: q =>
        match f with
        | no_fault =>
            {| a_options := a_options s; a_queue := q;
               a_written := a_written s ++ [j]; a_running := true;
               a_cout := a_cout s +:+ render (j_record j) +:+ String LF "";
               a_cerr := a_cerr s |}
        | raises written _ =>
            {| a_options := a_options s; a_queue := q;
               a_written := a_written s; a_running := false;
               a_cout := a_cout s +:+ written; a_cerr := a_cerr s |}
        end
    end
  else s.

(** What happens around one asynchronous sink: a thread submits a record,
    or the worker takes a step. *)
Variant async_event :=
  | submitted (t : thread_id) (r : record_view)
  | worker_step (f : fault).

Definition async_step {V : Verbosity} {T : Terminal}
    (s : asynchronous_sink) (e : async_event) : asynchronous_sink :=
  match e with
  | submitted t r => enqueue t r s
  | worker_step f => feed_record f s
  end.

(** Any interleaving of submitting threads and worker steps. *)
Definition async_run {V : Verbosity} {T : Terminal}
    (s : asynchronous_sink) (es : list async_event) : asynchronous_sink :=
  fold_left async_step es s.

(** The jobs submitted during a run, in the order of submission. *)
Definition submissions (es : list async_event) : list job :=
  omap (fun e => match e with
                 | submitted t r => Some {| j_thread := t; j_record := r |}
                 | worker_step _ => None
                 end) es.

Definition fault_free (e : async_event) : bool :=
  match e with
  | worker_step (raises _ _) => false
  | _ => true
  end.

(** The jobs of thread [t] among [js], in their order. *)
Definition jobs_of (t : thread_id) (js : list job) : list job :=
  filter (fun j => j_thread j = t) js.

(** The jobs among [js] that the filter with options [o] accepts. *)
Definition accepted_by (o : LoggingOptions) (js : list job) : list job :=
  filter (fun j => sink_filter o (j_record j) = true) js.

(** The text of the lines of [js]. *)
Definition lines {V : Verbosity} {T : Terminal} (js : list job) : string :=
  String.concat "" (map (fun j => render (j_record j) +:+ String LF "") js).

(** ** Thread names in the three builds *)

(** The branch the preprocessor keeps at lines 98-105 and 110-116. *)
Variant build := glibc_build | apple_build | portable_build.

(** The two functions of the pthread library that lines 100, 111 and 113
    call, over the state [os] in which the system keeps thread names.
    [pthread_getname_np] gives what the call leaves in the buffer; the
    result code of [pthread_setname_np] is not read by the file. *)
Class Pthread := {
  os : Type;
  pthread_setname_np : thread_id -> string -> os -> os;
  pthread_getname_np : thread_id -> os -> string
}.

Definition NUL : ascii := ascii_of_nat 0.
Definition is_nul (c : ascii) : bool := Ascii.eqb c NUL.

(** The C string a [std::string] hands over: its bytes before the first
    zero byte. *)
Definition c_str (s : string) : string := (span is_nul s).1.

(** [buffer[127] = 0; return buffer]: the buffer as a string. *)
Definition buffer_string (s : string) : string := c_str (String.substring 0 127 s).

(** The process: the globals of the file and the names the system keeps. *)
Record process {P : Pthread} := {
  globals : world;
  threads : os
}.

(** Lines 96-106, with the three branches. *)
Definition getThreadName_in {P : Pthread} (b : build) (t : thread_id) (p : process) : string :=
  match b with
  | portable_build => getThreadName t (globals p)
  | _ => buffer_string (pthread_getname_np t (threads p))
  end.

(** Lines 108-117, with the three branches. *)
Definition setThreadName_in {P : Pthread}
    (b : build) (t : thread_id) (_n : string) (p : process) : process :=
  match b with
  | portable_build =>
      {| globals := setThreadName t _n (globals p); threads := threads p |}
  | _ =>
      {| globals := globals p; threads := pthread_setname_np t (c_str _n) (threads p) |}
  end.

(** Renamings by several threads, one after the other. *)
Definition rename_all {P : Pthread}
    (b : build) (p : process) (cs : list (thread_id * string)) : process :=
  fold_left (fun p c => setThreadName_in b c.1 c.2 p) cs p.

(** What the file relies on from the pthread library: a name the library
    accepts is the one read back, a name it refuses leaves the state as it
    was, a renaming is not seen by other threads, and accepted names fit
    the buffer. *)
Definition pthread_keeps_names (P : Pthread) (accepts : string -> bool) : Prop :=
  (forall t n s, accepts n = true -> pthread_getname_np t (pthread_setname_np t n s) = n) /\
  (forall t n s, accepts n = false -> pthread_setname_np t n s = s) /\
  (forall t t' n s, t <> t' ->
     pthread_getname_np t' (pthread_setname_np t n s) = pthread_getname_np t' s) /\
  (forall n, accepts n = true -> (String.length n < 127)%nat).

(** The library as on Linux: a name has at most 15 bytes, a longer one is
    refused; a thread that was never named carries the name [comm] it
    inherited. *)
Definition linux_accepts (n : string) : bool := bool_decide (String.length n <= 15)%nat.

Definition linux_pthread (comm : string) : Pthread :=
  {| os := gmap thread_id string;
     pthread_setname_np t n s := if linux_accepts n then <[ t := n ]> s else s;
     pthread_getname_np t s := default comm (s !! t) |}.

(** A Linux process at start: no thread renamed yet. *)
Definition linux_start (comm : string) : @process (linux_pthread comm) :=
  @Build_process (linux_pthread comm) (initial_world 0%nat) (∅ : gmap thread_id string).


(** Two threads submit while the worker runs. *)
Definition interleaved_run : list async_event :=
  [ submitted 0%nat boom;
    submitted 1%nat boom_prefixed;
    worker_step no_fault;
    submitted 0%nat (set_severity 4 boom);
    submitted 0%nat (set_severity 1 boom);
    worker_step no_fault ].

(** Splits [x ∉ [a; b; ...]] into the inequalities it stands for. *)
Ltac split_not_elem H := repeat (apply not_elem_of_cons in H as [? H]).

(** * Properties *)

(** ** Strings and the stream *)

Lemma string_app_nil_r (s : string) : s +:+ "" = s.
Proof. induction s as [| c s IH]; [done |]. change (String c (s +:+ "") = String c s). by rewrite IH. Qed.

Lemma string_app_assoc (a b c : string) : (a +:+ b) +:+ c = a +:+ (b +:+ c).
Proof.
  induction a as [| x a IH]; [done |].
  change (String x ((a +:+ b) +:+ c) = String x (a +:+ (b +:+ c))). by rewrite IH.
Qed.

Lemma string_length_app (a b : string) :
  String.length (a +:+ b) = (String.length a + String.length b)%nat.
Proof.
  induction a as [| x a IH]; [done |].
  change (S (String.length (a +:+ b)) = S (String.length a + String.length b)). by rewrite IH.
Qed.

Lemma length_fill (n : nat) (c : ascii) : String.length (fill n c) = n.
Proof. induction n as [| n IH]; simpl; [done | by rewrite IH]. Qed.

Lemma char_free_app (bad : ascii -> bool) (a b : string) :
  char_free bad (a +:+ b) = char_free bad a && char_free bad b.
Proof.
  induction a as [| x a IH]; [done |].
  change (negb (bad x) && char_free bad (a +:+ b) =
          negb (bad x) && char_free bad a && char_free bad b).
  by rewrite IH, andb_assoc.
Qed.

Lemma char_free_fill (bad : ascii -> bool) (n : nat) (c : ascii) :
  bad c = false -> char_free bad (fill n c) = true.
Proof. intros Hc. induction n as [| n IH]; simpl; [done | by rewrite Hc, IH]. Qed.

Section Stream.
Context {V : Verbosity} {T : Terminal}.

(** The formatter appends to the stream it is given, whatever width and
    adjustment that stream comes with: every field sets its own. *)
Lemma formatter_str (r : record_view) (strm : formatting_ostream) :
  str (formatter r strm) =
  str strm +:+ fixed_fields r +:+ prefix_segment (prefix r) +:+ smessage r +:+
  suffix_segment (suffix r).
Proof.
  unfold formatter, g_timestampFormatter, fixed_fields, left_justify,
    prefix_segment, suffix_segment.
  destruct (prefix r), (suffix r); simpl;
    by rewrite ?string_app_nil_r, ?string_app_assoc, ?string_app_nil_r.
Qed.

Lemma render_layout (r : record_view) :
  render r =
  fixed_fields r +:+ prefix_segment (prefix r) +:+ smessage r +:+ suffix_segment (suffix r).
Proof. unfold render. by rewrite formatter_str. Qed.

End Stream.

(** ** The label table *)

Section Labels.
Context {V : Verbosity}.

Lemma verbosity_ordered_distinct : verbosity_ordered V -> verbosity_distinct V.
Proof.
  unfold verbosity_ordered, verbosity_distinct. intros (H1 & H2 & H3 & H4).
  repeat (apply NoDup_cons; split); try apply NoDup_nil_2;
    rewrite ?not_elem_of_cons; repeat split; try lia; apply not_elem_of_nil.
Qed.

Lemma verbosityToString_cases (n : Z) :
  verbosityToString n ∈ ["ERROR"; "WARN"; "INFO"; "DEBUG"; "TRACE"; ""].
Proof.
  unfold verbosityToString.
  repeat (case (Z.eqb_spec n _); intros _; [set_solver |]). set_solver.
Qed.

(** C6. [verbosityToString] is defined on every integer: the five
    verbosity constants give ERROR, WARN, INFO, DEBUG and TRACE, and every
    other integer gives the empty string. *)
Theorem verbosityToString_table (HV : verbosity_distinct V) :
  verbosityToString VerbosityError = "ERROR" /\
  verbosityToString VerbosityWarning = "WARN" /\
  verbosityToString VerbosityInfo = "INFO" /\
  verbosityToString VerbosityDebug = "DEBUG" /\
  verbosityToString VerbosityTrace = "TRACE" /\
  forall n : Z,
    n ∉ [VerbosityError; VerbosityWarning; VerbosityInfo; VerbosityDebug; VerbosityTrace] ->
    verbosityToString n = "".
Proof.
  unfold verbosity_distinct in HV.
  apply NoDup_cons in HV as [He HV]. apply NoDup_cons in HV as [Hw HV].
  apply NoDup_cons in HV as [Hi HV]. apply NoDup_cons in HV as [Hd _].
  split_not_elem He. split_not_elem Hw. split_not_elem Hi. split_not_elem Hd.
  unfold verbosityToString.
  repeat split.
  - by rewrite Z.eqb_refl.
  - repeat (case (Z.eqb_spec _ _); [congruence || reflexivity | intros ?]); congruence.
  - repeat (case (Z.eqb_spec _ _); [congruence || reflexivity | intros ?]); congruence.
  - repeat (case (Z.eqb_spec _ _); [congruence || reflexivity | intros ?]); congruence.
  - repeat (case (Z.eqb_spec _ _); [congruence || reflexivity | intros ?]); congruence.
  - intros n Hn. split_not_elem Hn.
    repeat (case (Z.eqb_spec _ _); [congruence | intros _]). reflexivity.
Qed.

End Labels.

Lemma verbosityToString_table_witness :
  verbosity_distinct levels /\ @verbosityToString levels 1 = "WARN" /\
  @verbosityToString levels 7 = "".
Proof.
  assert (H : verbosity_distinct levels)
    by (apply verbosity_ordered_distinct; unfold verbosity_ordered; simpl; lia).
  split; [exact H |].
  destruct (@verbosityToString_table levels H) as (_ & Hw & _ & _ & _ & Hn).
  split; [exact Hw |].
  apply Hn. simpl. rewrite !not_elem_of_cons. repeat split; try lia. apply not_elem_of_nil.
Defined.

(** ** The sink filter *)

Lemma contains_elem_of (l : list string) (v : string) :
  contains l v = true <-> v ∈ l.
Proof.
  induction l as [| x l IH]; simpl.
  - split; [discriminate | intros H; by apply elem_of_nil in H].
  - rewrite elem_of_cons. case (String.eqb_spec x v); intros Hx.
    + split; [intros _; by left | reflexivity].
    + rewrite IH. split; [by right | intros [-> | ?]; [congruence | done]].
Qed.

Lemma contains_not_elem_of (l : list string) (v : string) :
  contains l v = false <-> v ∉ l.
Proof.
  rewrite <- contains_elem_of. destruct (contains l v); split; congruence.
Qed.

Lemma empty_nil {A} (l : list A) : empty l = true <-> l = [].
Proof. destruct l; simpl; split; congruence. Qed.

Lemma sink_filter_accepts (o : LoggingOptions) (r : record_view) :
  sink_filter o r = true <->
  severity r <= verbosity o /\
  (includeChannels o = [] \/ channel r ∈ includeChannels o) /\
  channel r ∉ excludeChannels o.
Proof.
  unfold sink_filter. case (Z.gtb_spec (severity r) (verbosity o)); intros Hs.
  - split; [discriminate | intros [? _]; lia].
  - simpl. rewrite andb_true_iff, orb_true_iff, negb_true_iff.
    rewrite empty_nil, contains_elem_of, contains_not_elem_of.
    split; [intros [? ?]; repeat split; [lia | done | done] | intros (_ & ? & ?); done].
Qed.

Lemma sink_filter_rejects (o : LoggingOptions) (r : record_view) :
  ~ (severity r <= verbosity o /\
     (includeChannels o = [] \/ channel r ∈ includeChannels o) /\
     channel r ∉ excludeChannels o) ->
  sink_filter o r = false.
Proof.
  intros H. destruct (sink_filter o r) eqn:E; [| done].
  apply sink_filter_accepts in E. contradiction.
Qed.

(** C1. The filter accepts a record exactly when its severity is at most
    the threshold, the include set is empty or holds its channel, and the
    exclude set does not hold its channel.  A channel in both sets is
    rejected.  With threshold Info, nothing included and net excluded:
    (net, Warning) is rejected, (rpc, Warning) accepted, (rpc, Trace)
    rejected. *)
Theorem sink_filter_decision {V : Verbosity} (HV : verbosity_ordered V) :
  (forall o r,
     sink_filter o r = true <->
     severity r <= verbosity o /\
     (includeChannels o = [] \/ channel r ∈ includeChannels o) /\
     channel r ∉ excludeChannels o) /\
  (forall o r,
     channel r ∈ includeChannels o -> channel r ∈ excludeChannels o ->
     sink_filter o r = false) /\
  (forall r,
     (channel r = "net" -> severity r = VerbosityWarning ->
      sink_filter info_without_net r = false) /\
     (channel r = "rpc" -> severity r = VerbosityWarning ->
      sink_filter info_without_net r = true) /\
     (channel r = "rpc" -> severity r = VerbosityTrace ->
      sink_filter info_without_net r = false)).
Proof.
  destruct HV as (_ & Hwi & Hid & Hdt).
  split; [exact sink_filter_accepts |]. split.
  - intros o r _ Hex. apply sink_filter_rejects. intros (_ & _ & ?). done.
  - intros r. repeat split; intros Hc Hs.
    + apply sink_filter_rejects. simpl. rewrite Hc. intros (_ & _ & Hn).
      apply Hn. by left.
    + apply sink_filter_accepts. simpl. rewrite Hc, Hs.
      split; [lia |]. split; [by left |].
      rewrite not_elem_of_cons. split; [discriminate | apply not_elem_of_nil].
    + apply sink_filter_rejects. simpl. rewrite Hs. intros (? & _). lia.
Qed.

Lemma sink_filter_decision_witness :
  verbosity_ordered levels /\
  sink_filter (@info_without_net levels) (set_severity 1 boom) = false /\
  sink_filter (@info_without_net levels)
    {| severity := 1; channel := "rpc"; threadName := "main"; timestamp := noon;
       prefix := None; suffix := None; smessage := "boom" |} = true.
Proof.
  assert (H : verbosity_ordered levels) by (unfold verbosity_ordered; simpl; lia).
  split; [exact H |].
  destruct (@sink_filter_decision levels H) as (_ & _ & Hs).
  split.
  - destruct (Hs (set_severity 1 boom)) as (Hnet & _). apply Hnet; reflexivity.
  - match goal with |- sink_filter _ ?r = _ => destruct (Hs r) as (_ & Hrpc & _) end.
    apply Hrpc; reflexivity.
Defined.

(** C2. For a fixed configuration and channel the filter is monotone in
    the severity: when [s1 < s2] and the record is accepted at severity
    [s2], it is accepted at severity [s1]. *)
Theorem sink_filter_monotone (o : LoggingOptions) (r : record_view) (s1 s2 : Z) :
  s1 < s2 ->
  sink_filter o (set_severity s2 r) = true ->
  sink_filter o (set_severity s1 r) = true.
Proof.
  intros Hlt. rewrite !sink_filter_accepts. simpl.
  intros (Hs & Hin & Hex). split; [lia | done].
Qed.

Lemma sink_filter_monotone_witness :
  0 < 2 /\
  sink_filter only_net (set_severity 2 boom) = true /\
  sink_filter only_net (set_severity 0 boom) = true.
Proof.
  split; [lia |]. split; [reflexivity |].
  apply (sink_filter_monotone only_net boom 0 2); [lia | reflexivity].
Defined.

(** ** The process state *)

Section State.
Context {V : Verbosity} {T : Terminal}.

Lemma push_record_frame (r : record_view) (f : fault) (w : world) :
  g_logThreadName (push_record r f w).1 = g_logThreadName w /\
  g_vmTraceEnabled (push_record r f w).1 = g_vmTraceEnabled w /\
  sinks (push_record r f w).1 = sinks w /\
  handler_set (push_record r f w).1 = handler_set w.
Proof.
  unfold push_record.
  destruct (accepting_sinks r w); [done |].
  destruct f as [| written e]; [done |].
  destruct (handler_set w) eqn:Hh; [| by rewrite <- Hh].
  destruct e; simpl; by rewrite Hh.
Qed.

Lemma exec_vmTrace (w : world) (c : call) :
  is_setup c = false -> g_vmTraceEnabled (exec w c) = g_vmTraceEnabled w.
Proof.
  destruct c; simpl; try done. intros _. apply push_record_frame.
Qed.

Lemma run_vmTrace (cs : list call) (w : world) :
  forallb (fun c => negb (is_setup c)) cs = true ->
  g_vmTraceEnabled (run w cs) = g_vmTraceEnabled w.
Proof.
  unfold run. revert w. induction cs as [| c cs IH]; intros w; simpl; [done |].
  intros [Hc Hcs]%andb_true_iff. apply negb_true_iff in Hc.
  rewrite IH by done. by apply exec_vmTrace.
Qed.

Lemma exec_thread_name (t : thread_id) (w : world) (c : call) :
  sets_name_of t c = false ->
  g_logThreadName (exec w c) !! t = g_logThreadName w !! t.
Proof.
  destruct c as [t' n | | | |]; simpl; try done.
  - intros Ht%bool_decide_eq_false. by apply lookup_insert_ne.
  - intros _. f_equal. apply push_record_frame.
Qed.

Lemma run_thread_name (t : thread_id) (cs : list call) (w : world) :
  forallb (fun c => negb (sets_name_of t c)) cs = true ->
  getThreadName t (run w cs) = getThreadName t w.
Proof.
  unfold run. revert w. induction cs as [| c cs IH]; intros w; simpl; [done |].
  intros [Hc Hcs]%andb_true_iff. apply negb_true_iff in Hc.
  rewrite IH by done.
  unfold getThreadName. by rewrite exec_thread_name.
Qed.

(** The branch with the thread-specific pointer.  After thread [t] calls
    [setThreadName n], [getThreadName] on [t] returns [n] until [t] sets
    another name, whatever else runs in between.  A thread that never set
    a name reads the sentinel, except the thread that ran the static
    initialisation, which reads main. *)
Lemma thread_name_registry :
  (forall (w : world) (t : thread_id) (n : string) (cs : list call),
     forallb (fun c => negb (sets_name_of t c)) cs = true ->
     getThreadName t (run (setThreadName t n w) cs) = n) /\
  (forall (main t : thread_id) (cs : list call),
     forallb (fun c => negb (sets_name_of t c)) cs = true ->
     getThreadName t (run (initial_world main) cs) =
     if decide (t = main) then "main" else "<unknown>").
Proof.
  split.
  - intros w t n cs Hcs. rewrite run_thread_name by done.
    unfold getThreadName, setThreadName. simpl. by rewrite lookup_insert_eq.
  - intros main t cs Hcs. rewrite run_thread_name by done.
    unfold getThreadName, initial_world. simpl.
    destruct (decide (t = main)) as [-> | Hne].
    + by rewrite lookup_singleton_eq.
    + by rewrite lookup_singleton_ne.
Qed.

(** C8. After [setupLogging c], [isVmTraceEnabled] returns the [vmTrace]
    of [c], at once and after any calls that are not another setup. *)
Theorem isVmTraceEnabled_after_setup (w : world) (c : LoggingOptions) (cs : list call) :
  forallb (fun c => negb (is_setup c)) cs = true ->
  isVmTraceEnabled (setupLogging c w) = vmTrace c /\
  isVmTraceEnabled (run (setupLogging c w) cs) = vmTrace c.
Proof.
  intros Hcs. split; [done |].
  unfold isVmTraceEnabled. by rewrite run_vmTrace.
Qed.

(** C10. In every state reached from the initial one without a call of
    [setupLogging], [isVmTraceEnabled] returns false. *)
Theorem isVmTraceEnabled_default (main : thread_id) (cs : list call) :
  forallb (fun c => negb (is_setup c)) cs = true ->
  isVmTraceEnabled (run (initial_world main) cs) = false.
Proof.
  intros Hcs. unfold isVmTraceEnabled. by rewrite run_vmTrace.
Qed.

End State.

Lemma isVmTraceEnabled_after_setup_witness :
  isVmTraceEnabled (setupLogging only_net (initial_world 0%nat)) = true /\
  isVmTraceEnabled
    (@run levels ansi (setupLogging only_net (initial_world 0%nat)) busy_calls) = true.
Proof.
  apply (@isVmTraceEnabled_after_setup levels ansi (initial_world 0%nat) only_net busy_calls).
  reflexivity.
Defined.

Lemma isVmTraceEnabled_default_witness :
  isVmTraceEnabled (@run levels ansi (initial_world 0%nat) busy_calls) = false.
Proof.
  apply (@isVmTraceEnabled_default levels ansi 0%nat busy_calls). reflexivity.
Defined.

(** ** Decorations *)

Section Decorations.
Context {V : Verbosity} {T : Terminal}.

Lemma prefix_segment_length (p : option string) :
  String.length (prefix_segment p) =
  match p with
  | Some p => (String.length EthNavy + String.length p + String.length EthReset + 1)%nat
  | None => 0%nat
  end.
Proof.
  destruct p as [p |]; [| done]. unfold prefix_segment.
  rewrite !string_length_app. simpl. lia.
Qed.

Lemma suffix_segment_length (s : option string) :
  String.length (suffix_segment s) =
  match s with
  | Some s => (1 + String.length EthNavy + String.length s + String.length EthReset)%nat
  | None => 0%nat
  end.
Proof.
  destruct s as [s |]; [| done]. unfold suffix_segment.
  rewrite !string_length_app. simpl. lia.
Qed.

Lemma render_length (r : record_view) :
  String.length (render r) =
  (String.length (fixed_fields r) + String.length (prefix_segment (prefix r)) +
   String.length (smessage r) + String.length (suffix_segment (suffix r)))%nat.
Proof. rewrite render_layout, !string_length_app. lia. Qed.

Lemma fixed_fields_set_decorations (p s : option string) (r : record_view) :
  fixed_fields (set_decorations p s r) = fixed_fields r.
Proof. reflexivity. Qed.

(** C7. Whatever the other attributes, the line is the leading fields,
    the prefix segment, the message and the suffix segment; a segment is
    empty exactly when its attribute is missing.  An empty prefix still
    gives the colour codes and the blank, so the line of a record with the
    prefix [""] differs from the line of the same record without prefix. *)
Theorem decorations_follow_presence (r : record_view) :
  (forall p s : option string,
     render (set_decorations p s r) =
     fixed_fields r +:+ prefix_segment p +:+ smessage r +:+ suffix_segment s) /\
  (forall p : option string, prefix_segment p = "" <-> p = None) /\
  (forall s : option string, suffix_segment s = "" <-> s = None) /\
  prefix_segment (Some "") = EthNavy +:+ EthReset +:+ " " /\
  suffix_segment (Some "") = " " +:+ EthNavy +:+ EthReset /\
  (forall s : option string,
     render (set_decorations (Some "") s r) <> render (set_decorations None s r)) /\
  (forall p : option string,
     render (set_decorations p (Some "") r) <> render (set_decorations p None r)).
Proof.
  split; [intros p s; by rewrite render_layout |].
  split.
  { intros [p |]; split; try done. intros H%(f_equal String.length).
    rewrite prefix_segment_length in H. simpl in H. lia. }
  split.
  { intros [s |]; split; done. }
  split; [done |]. split; [done |]. split.
  - intros s H%(f_equal String.length).
    rewrite !render_length, !prefix_segment_length, !fixed_fields_set_decorations in H.
    simpl in H. lia.
  - intros p H%(f_equal String.length).
    rewrite !render_length, !suffix_segment_length, !fixed_fields_set_decorations in H.
    simpl in H. lia.
Qed.

End Decorations.

(** ** The exception boundary *)

Section Boundary.
Context {V : Verbosity} {T : Terminal}.

Lemma stamp_frame (t : thread_id) (now : ptime) (p : payload) (w w' : world) :
  g_logThreadName w' = g_logThreadName w -> stamp t now p w' = stamp t now p w.
Proof. intros H. unfold stamp, getThreadName. by rewrite H. Qed.


Lemma push_record_no_fault (r : record_view) (w : world) :
  (push_record r no_fault w).2 = None /\
  cout (push_record r no_fault w).1 = cout w +:+ written_lines (accepting_sinks r w) r /\
  cerr (push_record r no_fault w).1 = cerr w.
Proof.
  unfold push_record. destruct (accepting_sinks r w) eqn:E; [| done].
  simpl. by rewrite string_app_nil_r.
Qed.



End Boundary.



(** ** Reading a line back *)

Lemma span_app (stop : ascii -> bool) (f rest : string) :
  char_free stop f = true -> stops_at stop rest -> span stop (f +:+ rest) = (f, rest).
Proof.
  intros Hf Hrest. induction f as [| c f IH].
  - change (span stop rest = ("", rest)). destruct rest as [| c rest]; [done |].
    simpl in *. by rewrite Hrest.
  - simpl in Hf. apply andb_true_iff in Hf as [Hc Hf]. apply negb_true_iff in Hc.
    change (span stop (String c (f +:+ rest)) = (String c f, rest)).
    simpl. by rewrite Hc, IH.
Qed.

Lemma strip_prefix_app (p s : string) : strip_prefix p (p +:+ s) = Some s.
Proof.
  induction p as [| c p IH]; [done |].
  change (strip_prefix (String c p) (String c (p +:+ s)) = Some s).
  simpl. by rewrite Ascii.eqb_refl.
Qed.

Lemma strip_prefix_escape (navy s : string) :
  unescaped_head s -> strip_prefix (String ESC navy) s = None.
Proof.
  destruct s as [| c s]; [done |].
  change (is_esc c = false ->
          (if Ascii.eqb ESC c then strip_prefix navy s else None) = None).
  unfold is_esc. rewrite (Ascii.eqb_sym ESC c). by intros ->.
Qed.

Lemma take_app (a s : string) : take (String.length a) (a +:+ s) = Some (a, s).
Proof.
  induction a as [| c a IH]; [done |].
  change (take (S (String.length a)) (String c (a +:+ s)) = Some (String c a, s)).
  simpl. by rewrite IH.
Qed.

Lemma take_format_date_time (t : ptime) (s : string) :
  take 14 (format_date_time t +:+ s) = Some (format_date_time t, s).
Proof. exact (take_app (format_date_time t) s). Qed.

Lemma drop_last_blank_app (m : string) : drop_last_blank (m +:+ " ") = Some m.
Proof.
  induction m as [| c m IH]; [done |].
  change (drop_last_blank (String c (m +:+ " ")) = Some (String c m)).
  simpl. rewrite IH. destruct (m +:+ " ") eqn:E; [| done].
  destruct m; discriminate.
Qed.

Lemma stops_at_fill (stop : ascii -> bool) (n : nat) (rest : string) :
  stop SP = true -> stops_at stop rest -> stops_at stop (fill n SP +:+ rest).
Proof. intros Hsp Hrest. destruct n; [done | exact Hsp]. Qed.

Lemma read_field_justified (w : nat) (stop : ascii -> bool) (f rest : string) :
  char_free stop f = true -> stop SP = true -> stops_at stop rest ->
  read_field w stop (left_justify w f +:+ rest) = Some (f, rest).
Proof.
  intros Hf Hsp Hrest. unfold read_field, left_justify.
  rewrite string_app_assoc, span_app by auto using stops_at_fill.
  by rewrite strip_prefix_app.
Qed.

Lemma digit_not_lf (n : nat) : is_lf (digit n) = false.
Proof.
  unfold digit. pose proof (Nat.mod_upper_bound n 10 ltac:(lia)) as Hlt.
  generalize dependent (n mod 10)%nat. intros k Hlt.
  do 10 (destruct k as [| k]; [reflexivity |]). lia.
Qed.

Lemma two_digits_one_line (n : nat) : char_free is_lf (two_digits n) = true.
Proof.
  change (negb (is_lf (digit (n / 10))) && (negb (is_lf (digit n)) && true) = true).
  by rewrite !digit_not_lf.
Qed.

Lemma format_date_time_one_line (t : ptime) :
  char_free is_lf (format_date_time t) = true.
Proof.
  unfold format_date_time. rewrite !char_free_app, !two_digits_one_line. reflexivity.
Qed.

Section Reading.
Context {V : Verbosity} {T : Terminal}.

Lemma verbosityToString_char_free (bad : ascii -> bool) (n : Z) :
  (forall s, s ∈ ["ERROR"; "WARN"; "INFO"; "DEBUG"; "TRACE"; ""] -> char_free bad s = true) ->
  char_free bad (verbosityToString n) = true.
Proof. intros H. apply H, verbosityToString_cases. Qed.

Lemma verbosityToString_no_blank (n : Z) : char_free is_sp (verbosityToString n) = true.
Proof.
  apply verbosityToString_char_free. intros s Hs.
  repeat (apply elem_of_cons in Hs as [-> | Hs]; [reflexivity |]).
  by apply elem_of_nil in Hs.
Qed.

Lemma verbosityToString_one_line (n : Z) : char_free is_lf (verbosityToString n) = true.
Proof.
  apply verbosityToString_char_free. intros s Hs.
  repeat (apply elem_of_cons in Hs as [-> | Hs]; [reflexivity |]).
  by apply elem_of_nil in Hs.
Qed.

Lemma read_prefix_segment (p : option string) (rest : string) :
  escape_coded T ->
  char_free is_esc (default "" p) = true ->
  unescaped_head rest ->
  read_prefix (prefix_segment p +:+ rest) = Some (p, rest).
Proof.
  intros ((navy & Hnavy) & (reset & Hreset)) Hp Hrest.
  unfold read_prefix, prefix_segment. destruct p as [p |].
  - rewrite !string_app_assoc, strip_prefix_app.
    rewrite span_app; [| exact Hp | by rewrite Hreset].
    rewrite <- (string_app_assoc EthReset " " rest). by rewrite strip_prefix_app.
  - change ("" +:+ rest) with rest. rewrite Hnavy. by rewrite strip_prefix_escape.
Qed.

Lemma read_message_segment (m : string) (s : option string) :
  escape_coded T ->
  char_free is_esc m = true ->
  char_free is_esc (default "" s) = true ->
  read_message (m +:+ suffix_segment s) = Some (m, s).
Proof.
  intros ((navy & Hnavy) & (reset & Hreset)) Hm Hs.
  unfold read_message, suffix_segment. destruct s as [s |].
  - rewrite <- (string_app_assoc m " ").
    rewrite span_app; [| by rewrite char_free_app, Hm | by rewrite Hnavy].
    rewrite drop_last_blank_app, strip_prefix_app. cbn [mbind option_bind].
    rewrite span_app; [| exact Hs | by rewrite Hreset].
    rewrite String.eqb_refl, Hnavy. reflexivity.
  - rewrite string_app_nil_r.
    rewrite <- (string_app_nil_r m) at 1. by rewrite span_app.
Qed.

Lemma message_head_unescaped (m : string) (s : option string) :
  char_free is_esc m = true -> unescaped_head (m +:+ suffix_segment s).
Proof.
  intros Hm. destruct m as [| c m].
  - destruct s; done.
  - simpl in Hm. apply andb_true_iff in Hm as [Hc _]. by apply negb_true_iff in Hc.
Qed.

Lemma parse_line_render (r : record_view) :
  escape_coded T -> separable r -> parse_line (render r) = Some (fields_of r).
Proof.
  intros HT (Hthread & Hchan & Hpfx & Hmsg & Hsfx).
  pose proof HT as ((navy & Hnavy) & (reset & Hreset)).
  rewrite render_layout. unfold fixed_fields, parse_line.
  rewrite !string_app_assoc.
  rewrite read_field_justified by (done || apply verbosityToString_no_blank).
  cbn [mbind option_bind].
  rewrite (strip_prefix_app " "). cbn [mbind option_bind].
  rewrite strip_prefix_app. cbn [mbind option_bind].
  rewrite take_format_date_time. cbn [mbind option_bind].
  rewrite <- (string_app_assoc EthReset " "), strip_prefix_app. cbn [mbind option_bind].
  rewrite strip_prefix_app. cbn [mbind option_bind].
  rewrite read_field_justified; [| exact Hthread | reflexivity | by rewrite Hreset].
  cbn [mbind option_bind].
  rewrite <- (string_app_assoc EthReset " "), strip_prefix_app. cbn [mbind option_bind].
  rewrite read_field_justified by done. cbn [mbind option_bind].
  rewrite (strip_prefix_app " "). cbn [mbind option_bind].
  rewrite read_prefix_segment by auto using message_head_unescaped.
  cbn [mbind option_bind].
  rewrite read_message_segment by done. reflexivity.
Qed.

Lemma render_one_line (r : record_view) :
  line_break_free T r -> char_free is_lf (render r) = true.
Proof.
  intros (Hreset & Hnavy & Hviolet & Hthread & Hchan & Hpfx & Hmsg & Hsfx).
  rewrite render_layout.
  unfold fixed_fields, left_justify, prefix_segment, suffix_segment.
  destruct (prefix r), (suffix r); simpl in Hpfx, Hsfx;
    rewrite !char_free_app;
    rewrite ?Hreset, ?Hnavy, ?Hviolet, ?Hthread, ?Hchan, ?Hpfx, ?Hmsg, ?Hsfx,
      ?verbosityToString_one_line, ?format_date_time_one_line, ?char_free_fill by done;
    reflexivity.
Qed.

Lemma render_one_line_iff (r : record_view) :
  char_free is_lf (render r) = true <-> line_break_free T r.
Proof.
  split; [| apply render_one_line].
  rewrite render_layout.
  unfold fixed_fields, left_justify, prefix_segment, suffix_segment, line_break_free.
  destruct (prefix r), (suffix r); simpl default;
    rewrite !char_free_app, !andb_true_iff; tauto.
Qed.

(** C3, as the code has it.  For every record the line is, in this
    order: the severity label in 5 columns, the coloured time stamp, the
    coloured thread name in 4 columns, the channel in 6 columns, each
    followed by a blank, then the prefix segment if there is a prefix, the
    message, and the suffix segment if there is a suffix.  The formatter
    adds no line break of its own: the rendering is one line exactly
    when no field and no colour code holds a line break.  When the colour
    codes start with the escape character and the text of the record keeps
    clear of the separators (no blank or escape in the thread name, no
    blank in the channel, no escape in prefix, message and suffix),
    reading the line field by field gives back, in the same order, the
    label, the time stamp as month-day hours:minutes:seconds, the thread
    name, the channel, the prefix if any, the message and the suffix if
    any. *)
Theorem render_reads_back (r : record_view) :
  render r =
    left_justify 5 (verbosityToString (severity r)) +:+ " " +:+
    EthViolet +:+ format_date_time (timestamp r) +:+ EthReset +:+ " " +:+
    EthNavy +:+ left_justify 4 (threadName r) +:+ EthReset +:+ " " +:+
    left_justify 6 (channel r) +:+ " " +:+
    prefix_segment (prefix r) +:+ smessage r +:+ suffix_segment (suffix r) /\
  (char_free is_lf (render r) = true <-> line_break_free T r) /\
  (escape_coded T -> separable r -> parse_line (render r) = Some (fields_of r)).
Proof.
  split; [| split].
  - rewrite render_layout. unfold fixed_fields. by rewrite !string_app_assoc.
  - apply render_one_line_iff.
  - apply parse_line_render.
Qed.

End Reading.

(** C3 as stated fails: no reader recovers the fields of every record,
    since a record with prefix p and one without prefix, whose message
    starts with the coloured p, have the same rendering; and a message
    that holds a line break renders as two lines. *)
Lemma render_is_ambiguous :
  ~ (exists parse : string -> option line_fields,
       forall r : record_view, parse (@render levels ansi r) = Some (@fields_of levels r)) /\
  char_free is_lf (@render levels ansi boom_two_lines) = false.
Proof.
  split; [| reflexivity].
  intros [parse Hparse].
  pose proof (Hparse boom_prefixed) as Hp.
  pose proof (Hparse boom_disguised) as Hd.
  assert (Hsame : @render levels ansi boom_prefixed = @render levels ansi boom_disguised)
    by reflexivity.
  rewrite Hsame, Hd in Hp. discriminate Hp.
Qed.

Lemma render_reads_back_witness :
  escape_coded ansi /\ separable boom /\
  @parse_line ansi (@render levels ansi boom) =
    Some {| f_label := "ERROR"; f_time := "03-14 12:00:07"; f_thread := "main";
            f_channel := "net"; f_prefix := None; f_message := "boom";
            f_suffix := None |} /\
  char_free is_lf (@render levels ansi boom) = true.
Proof.
  assert (HT : escape_coded ansi) by (split; eexists; reflexivity).
  assert (Hr : separable boom) by (repeat split; reflexivity).
  assert (Hl : line_break_free ansi boom) by (repeat split; reflexivity).
  destruct (@render_reads_back levels ansi boom) as (_ & Hline & Hparse).
  split; [exact HT |]. split; [exact Hr |].
  split; [exact (Hparse HT Hr) | exact (proj2 Hline Hl)].
Defined.

(** * Further properties *)

(** ** What the filter looks at *)

Lemma nil_no_elem {A} (l : list A) : l = [] <-> forall x, x ∉ l.
Proof.
  split.
  - intros -> x. apply not_elem_of_nil.
  - destruct l as [| a l]; [done |]. intros H. destruct (H a). by left.
Qed.

Lemma bool_eq_iff (a b : bool) : (a = true <-> b = true) -> a = b.
Proof. destruct a, b; intros [H1 H2]; try done; [by rewrite H1 | by rewrite H2]. Qed.

(** X1. The decision of the filter depends on the record only through
    its severity and channel, and on the options only through the
    threshold and the members of the two channel lists: order and
    repetitions in the lists, and every other attribute, do not matter. *)
Theorem sink_filter_extensional (o o' : LoggingOptions) (r r' : record_view) :
  severity r = severity r' -> channel r = channel r' ->
  verbosity o = verbosity o' ->
  (forall c, c ∈ includeChannels o <-> c ∈ includeChannels o') ->
  (forall c, c ∈ excludeChannels o <-> c ∈ excludeChannels o') ->
  sink_filter o r = sink_filter o' r'.
Proof.
  intros Hs Hc Hv Hin Hex. apply bool_eq_iff.
  rewrite !sink_filter_accepts, Hs, Hc, Hv, Hex, (Hin (channel r')).
  assert (Hnil : includeChannels o = [] <-> includeChannels o' = []).
  { rewrite !nil_no_elem. split; intros H x; [rewrite <- Hin | rewrite Hin]; apply H. }
  by rewrite Hnil.
Qed.

Lemma sink_filter_extensional_witness :
  sink_filter net_rpc_net boom = sink_filter rpc_net boom_prefixed.
Proof.
  apply sink_filter_extensional; try reflexivity.
  - intros c. simpl. rewrite !elem_of_cons. rewrite !elem_of_nil. tauto.
  - intros c. simpl. rewrite !elem_of_cons. rewrite !elem_of_nil. tauto.
Defined.

(** X2. Loosening the options keeps what was accepted: with a threshold
    at least as high, fewer excluded channels, and an include list that is
    empty or grows from a non-empty one, every record accepted before is
    accepted after. *)
Theorem sink_filter_loosen (o o' : LoggingOptions) (r : record_view) :
  verbosity o <= verbosity o' ->
  includeChannels o' = [] \/
    (includeChannels o <> [] /\ includeChannels o ⊆ includeChannels o') ->
  excludeChannels o' ⊆ excludeChannels o ->
  sink_filter o r = true -> sink_filter o' r = true.
Proof.
  intros Hv Hin Hex. rewrite !sink_filter_accepts.
  intros (Hs & Hi & He). split; [lia |]. split.
  - destruct Hin as [Hnil | [Hne Hsub]]; [by left |].
    right. destruct Hi as [Hi | Hi]; [done | by apply Hsub].
  - intros Hc. by apply He, Hex.
Qed.

Lemma sink_filter_loosen_witness :
  sink_filter no_channel_lists (set_severity 2 boom) = true.
Proof.
  apply (sink_filter_loosen only_net no_channel_lists (set_severity 2 boom)).
  - simpl. lia.
  - by left.
  - simpl. intros c Hc. by apply elem_of_nil in Hc.
  - reflexivity.
Defined.

(** X3. An empty include list lets every channel through, so the first
    channel put on it narrows the filter: a record of any other channel,
    accepted before, is rejected after. *)
Theorem first_include_restricts (o : LoggingOptions) (r : record_view) (d : string) :
  includeChannels o = [] -> d <> channel r ->
  sink_filter o r = true ->
  sink_filter (add_include d o) r = false.
Proof.
  intros Hnil Hd _. apply sink_filter_rejects. simpl. rewrite Hnil.
  intros (_ & [Hcons | Hin] & _); [done |].
  apply elem_of_cons in Hin as [Hin | Hin]; [congruence | by apply elem_of_nil in Hin].
Qed.

Lemma first_include_restricts_witness :
  sink_filter no_channel_lists boom = true /\
  sink_filter (add_include "rpc" no_channel_lists) boom = false.
Proof.
  split; [reflexivity |].
  apply first_include_restricts; [reflexivity | discriminate | reflexivity].
Defined.

(** ** Labels and columns *)

Section Columns.
Context {V : Verbosity} {T : Terminal}.

Lemma verbosityToString_empty (n : Z) :
  verbosityToString n = "" <-> n ∉ known_levels.
Proof.
  unfold verbosityToString, known_levels. rewrite !not_elem_of_cons.
  repeat (case (Z.eqb_spec n _); [intros ->; split; [discriminate | tauto] | intros ?]).
  split; [intros _ | done]. repeat split; try done. apply not_elem_of_nil.
Qed.

Lemma verbosityToString_level (n : Z) :
  verbosityToString n <> "" ->
  n = (if String.eqb (verbosityToString n) "ERROR" then VerbosityError
       else if String.eqb (verbosityToString n) "WARN" then VerbosityWarning
       else if String.eqb (verbosityToString n) "INFO" then VerbosityInfo
       else if String.eqb (verbosityToString n) "DEBUG" then VerbosityDebug
       else VerbosityTrace).
Proof.
  unfold verbosityToString.
  repeat (case (Z.eqb_spec n _); [intros ->; reflexivity | intros _]). done.
Qed.

(** X4. The label tells the level: two integers with the same non-empty
    label are equal, and the label is empty exactly for the integers that
    are none of the five verbosity constants. *)
Theorem verbosityToString_identifies :
  (forall a b : Z,
     verbosityToString a = verbosityToString b -> verbosityToString a <> "" -> a = b) /\
  (forall n : Z, verbosityToString n = "" <-> n ∉ known_levels).
Proof.
  split; [| exact verbosityToString_empty].
  intros a b Hab Ha.
  rewrite (verbosityToString_level a Ha).
  rewrite (verbosityToString_level b) at 1 by congruence.
  by rewrite Hab.
Qed.

Lemma left_justify_length (w : nat) (s : string) :
  String.length (left_justify w s) = (w `max` String.length s)%nat.
Proof. unfold left_justify. rewrite string_length_app, length_fill. lia. Qed.

Lemma verbosityToString_length (n : Z) : (String.length (verbosityToString n) <= 5)%nat.
Proof.
  pose proof (verbosityToString_cases n) as H.
  repeat (apply elem_of_cons in H as [-> | H]; [simpl; lia |]).
  by apply elem_of_nil in H.
Qed.

Lemma format_date_time_length (t : ptime) : String.length (format_date_time t) = 14%nat.
Proof. reflexivity. Qed.

Lemma substring_skip (a : string) (n m : nat) (s : string) :
  String.substring (String.length a + n) m (a +:+ s) = String.substring n m s.
Proof.
  induction a as [| c a IH]; [done |].
  change (String.substring (S (String.length a + n)) m (String c (a +:+ s)) =
          String.substring n m s).
  simpl. apply IH.
Qed.

Lemma substring_take (b c : string) :
  String.substring 0 (String.length b) (b +:+ c) = b.
Proof.
  induction b as [| x b IH].
  - change (String.substring 0 0 c = ""). by destruct c.
  - change (String.substring 0 (S (String.length b)) (String x (b +:+ c)) = String x b).
    simpl. by rewrite IH.
Qed.

Lemma fixed_fields_length (r : record_view) :
  String.length (fixed_fields r) =
    (5 + 1 + String.length EthViolet + 14 + String.length EthReset + 1 +
     String.length EthNavy + (4 `max` String.length (threadName r)) +
     String.length EthReset + 1 + (6 `max` String.length (channel r)) + 1)%nat.
Proof.
  unfold fixed_fields.
  rewrite !string_length_app, !left_justify_length, format_date_time_length.
  pose proof (verbosityToString_length (severity r)). simpl. lia.
Qed.

(** X5. The columns of a rendered line.  Its first 5 characters are the
    label, padded with blanks, for every integer severity.  Thread name
    and channel are padded to 4 and 6 characters and never cut, so the
    message stands in the line at a column that depends only on the
    colour codes, on how far the two names exceed their columns and on
    the prefix segment; with names that fit and no prefix the message
    starts at the same column in every line. *)
Theorem render_columns (r : record_view) :
  let column :=
    (5 + 1 + String.length EthViolet + 14 + String.length EthReset + 1 +
     String.length EthNavy + (4 `max` String.length (threadName r)) +
     String.length EthReset + 1 + (6 `max` String.length (channel r)) + 1 +
     String.length (prefix_segment (prefix r)))%nat in
  String.substring 0 5 (render r) = left_justify 5 (verbosityToString (severity r)) /\
  String.length (left_justify 5 (verbosityToString (severity r))) = 5%nat /\
  String.substring column (String.length (smessage r)) (render r) = smessage r /\
  String.length (render r) =
    (column + String.length (smessage r) + String.length (suffix_segment (suffix r)))%nat.
Proof.
  intros column.
  assert (Hlabel : String.length (left_justify 5 (verbosityToString (severity r))) = 5%nat).
  { rewrite left_justify_length. pose proof (verbosityToString_length (severity r)). lia. }
  split; [| split; [exact Hlabel | split]].
  - rewrite render_layout. unfold fixed_fields. rewrite !string_app_assoc.
    rewrite <- Hlabel at 1. apply substring_take.
  - rewrite render_layout.
    rewrite <- (string_app_assoc (fixed_fields r)).
    replace column
      with (String.length (fixed_fields r +:+ prefix_segment (prefix r)) + 0)%nat
      by (unfold column; rewrite string_length_app, fixed_fields_length; lia).
    rewrite substring_skip. apply substring_take.
  - rewrite render_layout, !string_length_app, fixed_fields_length. unfold column. lia.
Qed.

End Columns.

Lemma verbosityToString_identifies_witness :
  @verbosityToString levels 3 = "DEBUG" /\ (3 : Z) ∈ @known_levels levels.
Proof.
  destruct (@verbosityToString_identifies levels) as [_ Hempty].
  split; [reflexivity |].
  destruct (decide ((3 : Z) ∈ @known_levels levels)) as [Hin | Hout]; [exact Hin |].
  apply Hempty in Hout. discriminate Hout.
Defined.

Lemma render_columns_witness :
  String.substring 0 5 (@render levels ansi (set_severity 1 boom)) = "WARN " /\
  String.substring 51 4 (@render levels ansi boom) = "boom".
Proof.
  destruct (@render_columns levels ansi (set_severity 1 boom)) as (Hlabel & _ & _ & _).
  destruct (@render_columns levels ansi boom) as (_ & _ & Hmsg & _).
  split; [exact Hlabel | exact Hmsg].
Defined.

(** ** The time stamp *)

Lemma is_nat_digit (n : nat) : Ascii.is_nat (digit n) = Some (n mod 10)%nat.
Proof.
  unfold digit. pose proof (Nat.mod_upper_bound n 10 ltac:(lia)) as Hlt.
  generalize dependent (n mod 10)%nat. intros k Hlt.
  do 10 (destruct k as [| k]; [reflexivity |]). lia.
Qed.

Lemma read_two_digits_app (n : nat) (s : string) :
  (n < 100)%nat -> read_two_digits (two_digits n +:+ s) = Some (n, s).
Proof.
  intros Hn.
  change (two_digits n +:+ s) with (String (digit (n / 10)) (String (digit n) s)).
  unfold read_two_digits. rewrite !is_nat_digit. cbn [mbind option_bind].
  do 2 f_equal.
  assert (n / 10 < 10)%nat by (apply Nat.Div0.div_lt_upper_bound; lia).
  rewrite (Nat.mod_small (n / 10) 10) by lia.
  pose proof (Nat.div_mod_eq n 10). lia.
Qed.

(** X6. The time stamp text is 14 characters for every time, and for the
    times of a calendar (every field below 100) reading it back gives
    month, day, hours, minutes and seconds; the year is not part of it. *)
Theorem format_date_time_reads_back (t : ptime) :
  calendar t ->
  String.length (format_date_time t) = 14%nat /\
  parse_date_time (format_date_time t) = Some (shown t) /\
  (forall t' : ptime, shown t' = shown t -> format_date_time t' = format_date_time t).
Proof.
  intros (Hmo & Hd & Hh & Hmi & Hse). split; [reflexivity |]. split.
  - unfold parse_date_time, format_date_time.
    rewrite read_two_digits_app by done. cbn [mbind option_bind].
    rewrite (strip_prefix_app "-"). cbn [mbind option_bind].
    rewrite read_two_digits_app by done. cbn [mbind option_bind].
    rewrite (strip_prefix_app " "). cbn [mbind option_bind].
    rewrite read_two_digits_app by done. cbn [mbind option_bind].
    rewrite (strip_prefix_app ":"). cbn [mbind option_bind].
    rewrite read_two_digits_app by done. cbn [mbind option_bind].
    rewrite (strip_prefix_app ":"). cbn [mbind option_bind].
    rewrite <- (string_app_nil_r (two_digits (pt_seconds t))).
    rewrite read_two_digits_app by done. reflexivity.
  - intros t' Ht'. unfold shown in Ht'. injection Ht' as H1 H2 H3 H4 H5.
    unfold format_date_time. by rewrite H1, H2, H3, H4, H5.
Qed.

Lemma format_date_time_reads_back_witness :
  calendar noon /\
  parse_date_time "03-14 12:00:07" =
    Some {| s_month := 3; s_day := 14; s_hours := 12; s_minutes := 0; s_seconds := 7 |}.
Proof.
  assert (H : calendar noon) by (unfold calendar; simpl; lia).
  split; [exact H |].
  destruct (format_date_time_reads_back noon H) as (_ & Hparse & _). exact Hparse.
Defined.

(** ** The formatter and its stream *)

Section Appending.
Context {V : Verbosity} {T : Terminal}.

Lemma formatter_flags (r : record_view) (strm : formatting_ostream) :
  width (formatter r strm) = 0%nat /\ adjust (formatter r strm) = adjust_left.
Proof. unfold formatter. destruct (prefix r), (suffix r); done. Qed.

(** X7. The formatter appends the line to whatever the stream holds and
    does not depend on the width and adjustment the stream comes with;
    it leaves no pending width behind.  So records formatted one after
    the other into one stream give their lines one after the other. *)
Theorem formatter_appends (r r' : record_view) (strm : formatting_ostream) :
  str (formatter r strm) = str strm +:+ render r /\
  width (formatter r strm) = 0%nat /\
  adjust (formatter r strm) = adjust_left /\
  str (formatter r' (formatter r strm)) = str strm +:+ render r +:+ render r'.
Proof.
  assert (Happ : forall x s, str (formatter x s) = str s +:+ render x).
  { intros x s. by rewrite formatter_str, render_layout. }
  split; [apply Happ |]. split; [apply formatter_flags |]. split; [apply formatter_flags |].
  by rewrite !Happ, string_app_assoc.
Qed.

End Appending.

(** ** Thread names *)

Lemma world_eq (w w' : world) :
  g_logThreadName w = g_logThreadName w' -> g_vmTraceEnabled w = g_vmTraceEnabled w' ->
  sinks w = sinks w' -> handler_set w = handler_set w' ->
  cout w = cout w' -> cerr w = cerr w' -> w = w'.
Proof. destruct w, w'; simpl; congruence. Qed.

(** X8. Names are kept per thread.  Setting a name twice on one thread
    is setting the second one; renamings of two different threads
    commute; a renaming of one thread is not seen by another; and
    setting the name a thread already has changes nothing. *)
Theorem setThreadName_algebra (w : world) (t t' : thread_id) (n n' : string) :
  setThreadName t n' (setThreadName t n w) = setThreadName t n' w /\
  (t <> t' ->
   setThreadName t n (setThreadName t' n' w) = setThreadName t' n' (setThreadName t n w)) /\
  (t <> t' -> getThreadName t' (setThreadName t n w) = getThreadName t' w) /\
  (g_logThreadName w !! t = Some n -> setThreadName t n w = w).
Proof.
  split; [| split; [| split]].
  - apply world_eq; try done. simpl. apply insert_insert_eq.
  - intros Hne. apply world_eq; try done. simpl. by apply insert_insert_ne.
  - intros Hne. unfold getThreadName. simpl. by rewrite lookup_insert_ne.
  - intros Hn. apply world_eq; try done. simpl. by apply insert_id.
Qed.

Lemma setThreadName_algebra_witness :
  getThreadName 0%nat (setThreadName 1%nat "worker" (initial_world 0%nat)) = "main" /\
  setThreadName 0%nat "main" (initial_world 0%nat) = initial_world 0%nat.
Proof.
  destruct (setThreadName_algebra (initial_world 0%nat) 1%nat 0%nat "worker" "x")
    as (_ & _ & Hother & _).
  destruct (setThreadName_algebra (initial_world 0%nat) 0%nat 0%nat "main" "x")
    as (_ & _ & _ & Hsame).
  split.
  - etrans; [apply Hother; lia | reflexivity].
  - apply Hsame. reflexivity.
Defined.

(** ** Runs *)

Lemma string_concat_cons (x : string) (l : list string) :
  String.concat "" (x :: l) = x +:+ String.concat "" l.
Proof. destruct l as [| y l]; simpl; [by rewrite string_app_nil_r | done]. Qed.

Section Runs.
Context {V : Verbosity} {T : Terminal}.

Lemma run_cons (w : world) (c : call) (cs : list call) :
  run w (c :: cs) = run (exec w c) cs.
Proof. reflexivity. Qed.

(** X9. What the setup calls of a run leave behind, from any state and
    through any other calls: every setup adds one sink with its own
    options and none is removed or replaced, the exception handler is in
    place from the first setup on, and the trace flag is the one of the
    latest setup. *)
Theorem run_setup_history (w : world) (cs : list call) :
  sinks (run w cs) = sinks w ++ setup_options cs /\
  handler_set (run w cs) = handler_set w || existsb is_setup cs /\
  isVmTraceEnabled (run w cs) =
    from_option vmTrace (g_vmTraceEnabled w) (last (setup_options cs)).
Proof.
  revert w. induction cs as [| c cs IH]; intros w.
  - simpl. rewrite app_nil_r, orb_false_r. done.
  - rewrite run_cons. destruct (IH (exec w c)) as (Hsinks & Hset & Htrace).
    rewrite Hsinks, Hset, Htrace. clear IH Hsinks Hset Htrace.
    destruct c as [t n | t | t | t now p f | o]; simpl; try done.
    + unfold log.
      destruct (push_record_frame (stamp t now p w) f w) as (_ & Htrace & Hsinks & Hset).
      by rewrite Htrace, Hsinks, Hset.
    + rewrite <- app_assoc, last_cons, orb_true_r. simpl.
      destruct (last (setup_options cs)); done.
Qed.

Lemma iter_setup_frame (o : LoggingOptions) (k : nat) (w : world) :
  g_logThreadName (Nat.iter k (setupLogging o) w) = g_logThreadName w /\
  cout (Nat.iter k (setupLogging o) w) = cout w /\
  sinks (Nat.iter k (setupLogging o) w) = sinks w ++ replicate k o.
Proof.
  induction k as [| k (Hn & Hc & Hs)]; simpl; [by rewrite app_nil_r |].
  rewrite Hn, Hc, Hs, <- app_assoc. repeat split. f_equal.
  change (o :: replicate k o) with (replicate (S k) o). by rewrite replicate_S_end.
Qed.

Lemma written_lines_replicate (o : LoggingOptions) (k : nat) (r : record_view) :
  written_lines (replicate k o) r = copies k (render r +:+ String LF "").
Proof.
  unfold written_lines. induction k as [| k IH]; [done |].
  change (map _ (replicate (S k) o))
    with ((render r +:+ String LF "") :: map (fun _ => render r +:+ String LF "") (replicate k o)).
  by rewrite string_concat_cons, IH.
Qed.

Lemma filter_replicate_accepting (o : LoggingOptions) (k : nat) (r : record_view) :
  sink_filter o r = true ->
  filter (fun o => sink_filter o r = true) (replicate k o) = replicate k o.
Proof.
  intros Ho. induction k as [| k IH]; [done |].
  simpl. by rewrite filter_cons_True, IH.
Qed.

(** X10. Setup is not idempotent: every call registers one more sink.
    After [k + 1] calls with options that accept a record, starting
    without sinks, one emission of the record writes its line [k + 1]
    times. *)
Theorem repeated_setup_duplicates
    (w : world) (o : LoggingOptions) (k : nat) (t : thread_id) (now : ptime) (p : payload) :
  sinks w = [] ->
  sink_filter o (stamp t now p w) = true ->
  cout (log t now p no_fault (Nat.iter (S k) (setupLogging o) w)).1 =
  cout w +:+ copies (S k) (render (stamp t now p w) +:+ String LF "").
Proof.
  intros Hnil Ho.
  destruct (iter_setup_frame o (S k) w) as (Hn & Hc & Hs).
  unfold log. rewrite (stamp_frame t now p w _ Hn).
  destruct (push_record_no_fault (stamp t now p w) (Nat.iter (S k) (setupLogging o) w))
    as (_ & -> & _).
  unfold accepting_sinks. rewrite Hc, Hs, Hnil, app_nil_l.
  by rewrite filter_replicate_accepting, written_lines_replicate.
Qed.

(** X12. With the thread-specific pointer and the synchronous front
    end, the name a thread sets is the name on its lines: after
    [setThreadName n] on thread [t], a record that [t] emits and the one
    sink accepts is written as one more line, and reading that line back
    gives [n] as the thread name. *)
Theorem logged_line_shows_thread_name
    (w : world) (o : LoggingOptions) (t : thread_id) (n : string) (now : ptime) (p : payload) :
  escape_coded T ->
  separable (stamp t now p (setThreadName t n w)) ->
  sinks w = [o] ->
  sink_filter o (stamp t now p (setThreadName t n w)) = true ->
  cout (log t now p no_fault (setThreadName t n w)).1 =
    cout w +:+ render (stamp t now p (setThreadName t n w)) +:+ String LF "" /\
  f_thread <$> parse_line (render (stamp t now p (setThreadName t n w))) = Some n.
Proof.
  intros HT Hsep Hsinks Hacc. split.
  - unfold log.
    destruct (push_record_no_fault (stamp t now p (setThreadName t n w)) (setThreadName t n w))
      as (_ & -> & _).
    unfold accepting_sinks. simpl sinks. simpl cout. rewrite Hsinks.
    rewrite filter_cons_True by done. reflexivity.
  - rewrite parse_line_render by done. simpl.
    unfold getThreadName. simpl. by rewrite lookup_insert_eq.
Qed.

End Runs.

(** ** The build without the logging library *)

Lemma qtep_run_cons (w : Qtep.world) (c : Qtep.call) (cs : list Qtep.call) :
  Qtep.run w (c :: cs) = Qtep.run (Qtep.exec w c) cs.
Proof. reflexivity. Qed.

(** X13. In the build without the logging library nothing a run does
    changes the answer of [isVmTraceEnabled], thread names are not kept
    ([getThreadName] stays empty after any renaming), and the error
    stream receives the posted texts in the order of the calls, each
    with a line end.  From the initial verbosity 5 tracing is enabled
    whenever [VerbosityTrace] is below 5. *)
Theorem qtep_build_run {V : Verbosity} (w : Qtep.world) (cs : list Qtep.call) :
  Qtep.isVmTraceEnabled (Qtep.run w cs) = Qtep.isVmTraceEnabled w /\
  Qtep.getThreadName (Qtep.run w cs) = "" /\
  Qtep.cerr (Qtep.run w cs) =
    Qtep.cerr w +:+
    String.concat "" (map (fun s => s +:+ String LF "") (Qtep.posted cs)) /\
  (VerbosityTrace < 5 ->
   Qtep.isVmTraceEnabled (Qtep.run Qtep.initial_world cs) = true).
Proof.
  assert (Hrun : forall cs w,
            Qtep.g_logVerbosity (Qtep.run w cs) = Qtep.g_logVerbosity w /\
            Qtep.cerr (Qtep.run w cs) =
              Qtep.cerr w +:+
              String.concat "" (map (fun s => s +:+ String LF "") (Qtep.posted cs))).
  { clear. induction cs as [| c cs IH]; intros w.
    - simpl. by rewrite string_app_nil_r.
    - rewrite qtep_run_cons. destruct (IH (Qtep.exec w c)) as [-> ->].
      destruct c as [n | s ch]; [done |].
      split; [done |]. simpl Qtep.exec.
      change (Qtep.posted (Qtep.call_simpleDebugOut s ch :: cs))
        with (s :: Qtep.posted cs).
      change (map ?f (s :: ?l)) with (f s :: map f l).
      rewrite string_concat_cons. simpl. by rewrite !string_app_assoc. }
  unfold Qtep.isVmTraceEnabled.
  destruct (Hrun cs w) as [Hv Hc]. rewrite Hv.
  split; [done |]. split; [done |]. split; [exact Hc |].
  intros Htrace. destruct (Hrun cs Qtep.initial_world) as [-> _]. simpl. lia.
Qed.

(** ** Concrete runs *)

Lemma repeated_setup_duplicates_witness :
  sinks (initial_world 0%nat) = [] /\
  sink_filter only_net (stamp 0%nat noon boom_payload (initial_world 0%nat)) = true /\
  cout (@log levels ansi 0%nat noon boom_payload no_fault
          (setupLogging only_net (setupLogging only_net (initial_world 0%nat)))).1 =
  (@render levels ansi boom +:+ String LF "") +:+ (@render levels ansi boom +:+ String LF "").
Proof.
  split; [reflexivity |]. split; [reflexivity |].
  etrans.
  - apply (@repeated_setup_duplicates levels ansi (initial_world 0%nat) only_net 1%nat
             0%nat noon boom_payload); reflexivity.
  - vm_compute. reflexivity.
Defined.

Lemma logged_line_shows_thread_name_witness :
  escape_coded ansi /\
  separable (stamp 1%nat noon warm_payload (setThreadName 1%nat "worker" configured)) /\
  f_thread <$>
    @parse_line ansi
      (@render levels ansi
         (stamp 1%nat noon warm_payload (setThreadName 1%nat "worker" configured)))
  = Some "worker".
Proof.
  assert (HT : escape_coded ansi) by (split; eexists; reflexivity).
  assert (Hsep : separable
            (stamp 1%nat noon warm_payload (setThreadName 1%nat "worker" configured)))
    by (repeat split; reflexivity).
  split; [exact HT |]. split; [exact Hsep |].
  destruct (@logged_line_shows_thread_name levels ansi configured only_net 1%nat "worker"
              noon warm_payload HT Hsep eq_refl eq_refl) as [_ Hname].
  exact Hname.
Defined.

Lemma qtep_build_run_witness :
  @Qtep.isVmTraceEnabled levels (Qtep.run Qtep.initial_world qtep_calls) = true /\
  Qtep.cerr (Qtep.run Qtep.initial_world qtep_calls) =
    ("one" +:+ String LF "") +:+ ("two" +:+ String LF "").
Proof.
  destruct (@qtep_build_run levels Qtep.initial_world qtep_calls) as (_ & _ & Herr & Hon).
  split.
  - apply Hon. simpl. lia.
  - etrans; [exact Herr |]. reflexivity.
Defined.

(** ** The asynchronous sink *)

Section Queue.
Context {V : Verbosity} {T : Terminal}.

Lemma lines_app (js ks : list job) : lines (js ++ ks) = lines js +:+ lines ks.
Proof.
  unfold lines. induction js as [| j js IH]; [done |].
  change (map ?f ((j :: js) ++ ks)) with (f j :: map f (js ++ ks)).
  change (map ?f (j :: js)) with (f j :: map f js).
  cbv beta. by rewrite !string_concat_cons, IH, !string_app_assoc.
Qed.

Lemma async_run_cons (s : asynchronous_sink) (e : async_event) (es : list async_event) :
  async_run s (e :: es) = async_run (async_step s e) es.
Proof. reflexivity. Qed.

(** One step without failure keeps the worker alive and the order: what
    is written and what waits, read together, only grow at the back. *)
Lemma async_step_order (s : asynchronous_sink) (e : async_event) :
  a_running s = true -> fault_free e = true ->
  a_running (async_step s e) = true /\
  a_options (async_step s e) = a_options s /\
  a_cerr (async_step s e) = a_cerr s /\
  a_written (async_step s e) ++ a_queue (async_step s e) =
    (a_written s ++ a_queue s) ++ accepted_by (a_options s) (submissions [e]) /\
  exists newly,
    a_written (async_step s e) = a_written s ++ newly /\
    a_cout (async_step s e) = a_cout s +:+ lines newly.
Proof.
  intros Hrun Hfree. destruct e as [t r | f]; simpl.
  - unfold enqueue, accepted_by. simpl submissions.
    destruct (sink_filter (a_options s) r) eqn:Hacc; simpl.
    + rewrite filter_cons_True by done. rewrite app_assoc.
      repeat split; try done. exists []. by rewrite app_nil_r, string_app_nil_r.
    + rewrite filter_cons_False by (simpl; congruence). rewrite app_nil_r.
      repeat split; try done. exists []. by rewrite app_nil_r, string_app_nil_r.
  - unfold feed_record. rewrite Hrun.
    destruct (a_queue s) as [| j q] eqn:Hq.
    + rewrite Hq, !app_nil_r. repeat split; try done.
      exists []. by rewrite app_nil_r, string_app_nil_r.
    + destruct f as [| written e]; [| done]. simpl.
      rewrite app_nil_r, <- app_assoc. repeat split; try done.
      exists [j]. split; [done |]. reflexivity.
Qed.

Lemma async_run_order (es : list async_event) (s : asynchronous_sink) :
  a_running s = true -> forallb fault_free es = true ->
  a_running (async_run s es) = true /\
  a_options (async_run s es) = a_options s /\
  a_cerr (async_run s es) = a_cerr s /\
  a_written (async_run s es) ++ a_queue (async_run s es) =
    (a_written s ++ a_queue s) ++ accepted_by (a_options s) (submissions es) /\
  exists newly,
    a_written (async_run s es) = a_written s ++ newly /\
    a_cout (async_run s es) = a_cout s +:+ lines newly.
Proof.
  revert s. induction es as [| e es IH]; intros s Hrun Hfree.
  - simpl. rewrite app_nil_r. repeat split; try done.
    exists []. by rewrite app_nil_r, string_app_nil_r.
  - simpl in Hfree. apply andb_true_iff in Hfree as [He Hes].
    destruct (async_step_order s e Hrun He) as (Hr1 & Ho1 & He1 & Hq1 & n1 & Hw1 & Hc1).
    destruct (IH (async_step s e) Hr1 Hes) as (Hr2 & Ho2 & He2 & Hq2 & n2 & Hw2 & Hc2).
    rewrite async_run_cons. split; [done |]. split; [congruence |]. split; [congruence |].
    split.
    + rewrite Hq2, Hq1, Ho1, <- app_assoc. f_equal.
      unfold accepted_by. rewrite <- filter_app. f_equal.
      unfold submissions. by rewrite <- omap_app.
    + exists (n1 ++ n2). rewrite Hw2, Hw1, Hc2, Hc1, lines_app.
      by rewrite app_assoc, string_app_assoc.
Qed.

(** As many worker steps as there are jobs in the queue write them all. *)
Lemma async_drain (s : asynchronous_sink) :
  a_running s = true ->
  a_queue (async_run s (replicate (length (a_queue s)) (worker_step no_fault))) = [] /\
  a_written (async_run s (replicate (length (a_queue s)) (worker_step no_fault))) =
    a_written s ++ a_queue s /\
  a_cout (async_run s (replicate (length (a_queue s)) (worker_step no_fault))) =
    a_cout s +:+ lines (a_queue s).
Proof.
  remember (a_queue s) as q eqn:Hq. revert s Hq.
  induction q as [| j q IH]; intros s Hq Hrun.
  - simpl. by rewrite <- Hq, app_nil_r, string_app_nil_r.
  - change (replicate (length (j :: q)) (worker_step no_fault))
      with (worker_step no_fault :: replicate (length q) (worker_step no_fault)).
    rewrite async_run_cons. simpl async_step. unfold feed_record. rewrite Hrun, <- Hq.
    match goal with |- context [async_run ?s' _] => destruct (IH s' eq_refl eq_refl) as (H1 & H2 & H3) end.
    simpl in H1, H2, H3. rewrite H1, H2, H3. split; [done |]. split.
    + by rewrite <- app_assoc.
    + change (lines (j :: q)) with (lines ([j] ++ q)). rewrite lines_app.
      change (lines [j]) with (render (j_record j) +:+ String LF "").
      by rewrite !string_app_assoc.
Qed.

Lemma jobs_of_accepted (o : LoggingOptions) (t : thread_id) (js : list job) :
  jobs_of t (accepted_by o js) = accepted_by o (jobs_of t js).
Proof.
  unfold jobs_of, accepted_by. rewrite !list_filter_filter.
  apply list_filter_iff. tauto.
Qed.

(** C9.  One asynchronous sink, any interleaving of submitting threads
    and worker steps, no failure.  What has been written followed by what
    still waits is, at every moment, the accepted records in the order of
    submission; the output holds the lines of the written records in that
    order.  So for every thread the records written so far are the first
    of those it submitted and the filter accepted, in the order it
    submitted them, and once the worker has taken a step for every
    waiting job they are all of them. *)
Theorem asynchronous_sink_fifo
    (o : LoggingOptions) (out err : string) (es : list async_event) (t : thread_id) :
  forallb fault_free es = true ->
  let s := async_run (new_sink o out err) es in
  let drained := async_run s (replicate (length (a_queue s)) (worker_step no_fault)) in
  a_written s ++ a_queue s = accepted_by o (submissions es) /\
  a_cout s = out +:+ lines (a_written s) /\
  jobs_of t (a_written s) `prefix_of` accepted_by o (jobs_of t (submissions es)) /\
  a_queue drained = [] /\
  a_cout drained = out +:+ lines (accepted_by o (submissions es)) /\
  jobs_of t (a_written drained) = accepted_by o (jobs_of t (submissions es)).
Proof.
  intros Hfree s drained.
  destruct (async_run_order es (new_sink o out err) eq_refl Hfree)
    as (Hrun & _ & _ & Hq & newly & Hw & Hc).
  fold s in Hrun, Hq, Hw, Hc. simpl in Hq, Hw, Hc.
  destruct (async_drain s Hrun) as (Hd1 & Hd2 & Hd3). fold drained in Hd1, Hd2, Hd3.
  subst newly. split; [done |]. split; [done |]. split.
  - rewrite <- jobs_of_accepted, <- Hq. unfold jobs_of. rewrite filter_app.
    by apply prefix_app_r.
  - split; [done |]. split.
    + by rewrite Hd3, Hc, <- Hq, lines_app, string_app_assoc.
    + by rewrite Hd2, Hq, jobs_of_accepted.
Qed.

End Queue.

Lemma asynchronous_sink_fifo_witness :
  jobs_of 0%nat
    (a_written (@async_run levels ansi (new_sink only_net "" "") interleaved_run))
  = [{| j_thread := 0%nat; j_record := boom |}] /\
  jobs_of 0%nat
    (a_written
       (@async_run levels ansi
          (@async_run levels ansi (new_sink only_net "" "") interleaved_run)
          [worker_step no_fault]))
  = [{| j_thread := 0%nat; j_record := boom |};
     {| j_thread := 0%nat; j_record := set_severity 1 boom |}].
Proof.
  destruct (@asynchronous_sink_fifo levels ansi only_net "" "" interleaved_run 0%nat eq_refl)
    as (_ & _ & _ & _ & _ & Hall).
  split; [reflexivity | exact Hall].
Defined.

(** ** Thread names in the three builds *)

Lemma substring_all (m : nat) (s : string) :
  (String.length s <= m)%nat -> String.substring 0 m s = s.
Proof.
  revert m. induction s as [| c s IH]; intros m Hm.
  - by destruct m.
  - destruct m as [| m]; simpl in Hm; [lia |]. simpl. rewrite IH; [done | lia].
Qed.

Lemma span_fst_char_free (stop : ascii -> bool) (s : string) :
  char_free stop (span stop s).1 = true.
Proof.
  induction s as [| c s IH]; [done |]. simpl.
  destruct (stop c) eqn:Hc; [done |].
  destruct (span stop s) as [f rest]. simpl in *. by rewrite Hc, IH.
Qed.

Lemma c_str_idem (s : string) : c_str (c_str s) = c_str s.
Proof.
  unfold c_str. pose proof (span_fst_char_free is_nul s) as Hfree.
  rewrite <- (string_app_nil_r (span is_nul s).1) at 1.
  by rewrite span_app.
Qed.

Lemma buffer_string_c_str (n : string) :
  (String.length (c_str n) < 127)%nat -> buffer_string (c_str n) = c_str n.
Proof.
  intros Hn. unfold buffer_string. rewrite substring_all by lia. apply c_str_idem.
Qed.

Lemma linux_pthread_keeps_names (comm : string) :
  pthread_keeps_names (linux_pthread comm) linux_accepts.
Proof.
  unfold pthread_keeps_names. simpl. repeat split.
  - intros t n s ->. by rewrite lookup_insert_eq.
  - by intros t n s ->.
  - intros t t' n s Hne. destruct (linux_accepts n); [| done].
    by rewrite lookup_insert_ne.
  - intros n Hn%bool_decide_eq_true. lia.
Qed.

Section Builds.
Context {V : Verbosity} {T : Terminal} {P : Pthread}.

Lemma process_eta (p : process) : {| globals := globals p; threads := threads p |} = p.
Proof. by destruct p. Qed.

Lemma rename_all_other (accepts : string -> bool) (b : build) (t : thread_id)
    (cs : list (thread_id * string)) (p : process) :
  pthread_keeps_names P accepts -> b <> portable_build ->
  forallb (fun c => negb (bool_decide (c.1 = t))) cs = true ->
  pthread_getname_np t (threads (rename_all b p cs)) = pthread_getname_np t (threads p).
Proof.
  intros (_ & _ & Hother & _) Hb. unfold rename_all. revert p.
  induction cs as [| [t' n'] cs IH]; intros p Hcs; [done |].
  simpl in Hcs. apply andb_true_iff in Hcs as [Hc Hcs].
  apply negb_true_iff, bool_decide_eq_false in Hc.
  simpl. rewrite IH by done.
  destruct b; [| | done]; simpl; by apply Hother.
Qed.

(** C5, as the code has it, build by build.  With the thread-specific
    pointer (neither glibc nor Apple): after thread [t] calls
    [setThreadName n], [getThreadName] on [t] returns [n] until [t] sets
    another name, whatever else runs in between; a thread that never set
    a name reads the sentinel, except the thread that ran the static
    initialisation, which reads main.  In the glibc and Apple builds the
    pthread library keeps the name and the file does not read its result
    code: after [setThreadName n], [getThreadName] returns [n] (up to its
    first zero byte) when the library accepts the name, whatever other
    threads rename in between; a name the library refuses leaves the
    state as it was; and a thread that never set a name reads the name
    the system holds for it, not the sentinel. *)
Theorem thread_names_by_build (accepts : string -> bool) :
  pthread_keeps_names P accepts ->
  ((forall (t : thread_id) (p : process),
      getThreadName_in portable_build t p = getThreadName t (globals p)) /\
   (forall (t : thread_id) (n : string) (p : process),
      globals (setThreadName_in portable_build t n p) = setThreadName t n (globals p)) /\
   (forall (w : world) (t : thread_id) (n : string) (cs : list call),
      forallb (fun c => negb (sets_name_of t c)) cs = true ->
      getThreadName t (run (setThreadName t n w) cs) = n) /\
   (forall (main t : thread_id) (cs : list call),
      forallb (fun c => negb (sets_name_of t c)) cs = true ->
      getThreadName t (run (initial_world main) cs) =
      if decide (t = main) then "main" else "<unknown>")) /\
  (forall b : build, b <> portable_build ->
   (forall (p : process) (t : thread_id) (n : string) (cs : list (thread_id * string)),
      accepts (c_str n) = true ->
      forallb (fun c => negb (bool_decide (c.1 = t))) cs = true ->
      getThreadName_in b t (rename_all b (setThreadName_in b t n p) cs) = c_str n) /\
   (forall (p : process) (t : thread_id) (n : string),
      accepts (c_str n) = false -> setThreadName_in b t n p = p) /\
   (forall (p : process) (t : thread_id) (cs : list (thread_id * string)),
      forallb (fun c => negb (bool_decide (c.1 = t))) cs = true ->
      getThreadName_in b t (rename_all b p cs) =
      buffer_string (pthread_getname_np t (threads p)))).
Proof.
  intros HP. split.
  - destruct thread_name_registry as [Hset Hnever]. by repeat split.
  - intros b Hb. pose proof HP as (Hok & Hrefused & _ & Hfit). repeat split.
    + intros p t n cs Hacc Hcs.
      assert (Hget : getThreadName_in b t (rename_all b (setThreadName_in b t n p) cs) =
                     buffer_string (pthread_getname_np t
                       (threads (rename_all b (setThreadName_in b t n p) cs))))
        by (by destruct b).
      rewrite Hget, (rename_all_other accepts) by done.
      assert (Hset : threads (setThreadName_in b t n p) =
                     pthread_setname_np t (c_str n) (threads p)) by (by destruct b).
      rewrite Hset, Hok by done. apply buffer_string_c_str. by apply Hfit.
    + intros p t n Hacc.
      assert (Hset : setThreadName_in b t n p =
                     {| globals := globals p;
                        threads := pthread_setname_np t (c_str n) (threads p) |})
        by (by destruct b).
      rewrite Hset, Hrefused by done. apply process_eta.
    + intros p t cs Hcs.
      assert (Hget : getThreadName_in b t (rename_all b p cs) =
                     buffer_string (pthread_getname_np t (threads (rename_all b p cs))))
        by (by destruct b).
      by rewrite Hget, (rename_all_other accepts).
Qed.

End Builds.

(** C5 as stated fails in every build.  With the thread-specific pointer
    the initial thread never called [setThreadName] and reads main.  On
    Linux a name of 16 bytes is refused, so it is not the name read
    back; and a thread that never set a name reads the name it
    inherited. *)
Lemma thread_name_claim_fails :
  getThreadName 0%nat (@run levels ansi (initial_world 0%nat) []) <> "<unknown>" /\
  @getThreadName_in (linux_pthread "aleth") glibc_build 1%nat
    (@setThreadName_in (linux_pthread "aleth") glibc_build 1%nat "a-sixteen-byte-n"
       (linux_start "aleth")) <> "a-sixteen-byte-n" /\
  @getThreadName_in (linux_pthread "aleth") glibc_build 1%nat (linux_start "aleth")
    <> "<unknown>".
Proof. repeat split; vm_compute; discriminate. Qed.

Lemma thread_names_by_build_witness :
  pthread_keeps_names (linux_pthread "aleth") linux_accepts /\
  @getThreadName_in (linux_pthread "aleth") glibc_build 1%nat
    (@rename_all (linux_pthread "aleth") glibc_build
       (@setThreadName_in (linux_pthread "aleth") glibc_build 1%nat "worker"
          (linux_start "aleth"))
       [(2%nat, "net"); (0%nat, "main")]) = "worker" /\
  getThreadName 1%nat
    (@run levels ansi (setThreadName 1%nat "worker" (initial_world 0%nat)) busy_calls)
  = "worker".
Proof.
  pose proof (linux_pthread_keeps_names "aleth") as HP.
  destruct (@thread_names_by_build levels ansi (linux_pthread "aleth") linux_accepts HP)
    as ((_ & _ & Hset & _) & Hpthread).
  destruct (Hpthread glibc_build ltac:(discriminate)) as (Hnamed & _ & _).
  split; [exact HP |]. split.
  - apply Hnamed; reflexivity.
  - apply Hset. reflexivity.
Defined.
